(** * rapidityplot.cc: rapidity histograms of primary hadrons

    A shallow embedding of [src/rapidityplot.cc] and of the histogram and
    plot-composition contracts its driver relies on.

    Conventions.
    - A [double] that a collaborator hands back or takes (a rapidity, a
      histogram edge, weight or count, the argument of [to_string_2dp]) is
      a binary64 datum, the [spec_float] of the Standard Library at
      precision 53, with its rounded arithmetic, signed zeros, infinities
      and NaN.
    - The kinematic quantities the driver computes itself (string mass,
      energy, momentum) are held as their exact rational values (type
      [Q]): for the three masses of the program each of them is a double
      and every operation on them is exact.
    - An [int] is a [Z]; every integer the program handles stays far inside
      the 32-bit range.
    - A loop [for (i = a; i < b; ++i)] is a structural recursion on the
      number [b - a] of iterations still to run.
    - Every function returns, next to its results, the list of the calls it
      makes on its collaborators, in program order. *)

From Stdlib Require Import ZArith QArith Qround Qabs List String Ascii Bool Lia Lqa.
From Stdlib Require Import Floats.SpecFloat.
Import ListNotations.

Open Scope string_scope.
Open Scope Z_scope.

(* ================================================================= *)
(** ** Doubles *)

Module Binary64.

Definition prec : Z := 53.
Definition emax : Z := 1024.

Definition double : Type := spec_float.

(** Arithmetic and comparisons of IEEE 754, rounding to nearest, ties to
    even; a comparison with a NaN is false. *)
Definition add : double -> double -> double := SFadd prec emax.
Definition sub : double -> double -> double := SFsub prec emax.
Definition mul : double -> double -> double := SFmul prec emax.
Definition div : double -> double -> double := SFdiv prec emax.
Definition ltb : double -> double -> bool := SFltb.
Definition leb : double -> double -> bool := SFleb.
Definition eqb : double -> double -> bool := SFeqb.

(** The conversion of an integer to [double]. *)
Definition of_Z (z : Z) : double := binary_normalize prec emax z 0 false.

(** The double of a rational the driver holds, as the quotient of its
    numerator and denominator; it is the rational itself when that is a
    double whose numerator and denominator are doubles too. *)
Definition of_Q (q : Q) : double := div (of_Z (Qnum q)) (of_Z (Zpos (Qden q))).

Definition zero : double := S754_zero false.
Definition one : double := of_Z 1.

Definition finite (x : double) : bool :=
  match x with
  | S754_zero _ | S754_finite _ _ _ => true
  | S754_infinity _ | S754_nan => false
  end.

Definition sign_bit (x : double) : bool :=
  match x with
  | S754_zero s | S754_infinity s | S754_finite s _ _ => s
  | S754_nan => false
  end.

(** The exact absolute value of a finite double ([0] for the others). *)
Definition magnitude (x : double) : Q :=
  match x with
  | S754_finite _ m e =>
      match e with
      | Zneg k => Zpos m # Pos.pow 2 k
      | _ => inject_Z (Zpos m * 2 ^ e)
      end
  | _ => 0%Q
  end.

(** The exact value of a finite double. *)
Definition value (x : double) : Q :=
  if sign_bit x then (- magnitude x)%Q else magnitude x.

(** [floor(x)] as an integer; none for an infinity or a NaN. *)
Definition floor (x : double) : option Z :=
  match x with
  | S754_zero _ => Some 0
  | S754_finite s m e =>
      let n := if s then Zneg m else Zpos m in
      Some (match e with
            | Zneg k => n / Zpos (Pos.pow 2 k)
            | _ => n * 2 ^ e
            end)
  | S754_infinity _ | S754_nan => None
  end.

End Binary64.

Abbreviation double := Binary64.double.

(* ================================================================= *)
(** ** Decimal output *)

Module Decimal.

(** The character of a decimal digit [d], [0 <= d < 10]. *)
Definition digit (d : Z) : ascii := ascii_of_nat (48 + Z.to_nat d).

Definition is_digit (c : ascii) : bool :=
  (48 <=? nat_of_ascii c)%nat && (nat_of_ascii c <=? 57)%nat.

Definition digit_value (c : ascii) : Z := Z.of_nat (nat_of_ascii c) - 48.

Fixpoint all_digits (s : string) : bool :=
  match s with
  | EmptyString => true
  | String c s' => is_digit c && all_digits s'
  end.

(** Digits of [n], least significant first pushed onto [acc]; [fuel]
    bounds the number of digits. *)
Fixpoint digits_onto (fuel : nat) (n : Z) (acc : string) : string :=
  match fuel with
  | O => acc
  | S fuel' =>
      let acc' := String (digit (n mod 10)) acc in
      if n / 10 =? 0 then acc' else digits_onto fuel' (n / 10) acc'
  end.

(** The decimal numeral of a natural number, without leading zeros
    (["0"] for zero). *)
Definition numeral (n : Z) : string :=
  digits_onto (S (Z.to_nat (Z.log2 n))) n "".

(** Reading a string of digits back, most significant first. *)
Fixpoint read_onto (acc : Z) (s : string) : Z :=
  match s with
  | EmptyString => acc
  | String c s' => read_onto (10 * acc + digit_value c) s'
  end.

Definition read (s : string) : Z := read_onto 0 s.

End Decimal.

(** Rounding of a non-negative rational to the nearest integer, ties to
    even: the rule the C library applies to the exact value of a [double]
    when it prints it in the default rounding mode. *)
Definition round_half_even (q : Q) : Z :=
  let f := Qfloor q in
  match Qcompare (q - inject_Z f) (1 # 2) with
  | Lt => f
  | Gt => f + 1
  | Eq => if Z.even f then f else f + 1
  end.

(** [out << fixed << setprecision(prec) << val] for [prec = 2].  A finite
    value gives a minus sign when its sign bit is set (also for a negative
    zero), the integer part, a point and two decimals, the magnitude being
    rounded exactly; an infinity or a NaN gives its name (the sign of a
    NaN is not represented). *)
Definition ostream_fixed_2 (val : double) : string :=
  match val with
  | S754_nan => "nan"
  | S754_infinity s => if s then "-inf" else "inf"
  | _ =>
      let n := round_half_even (Binary64.magnitude val * 100) in
      (if Binary64.sign_bit val then "-" else "")
      ++ Decimal.numeral (n / 100)
      ++ "."
      ++ String (Decimal.digit (n / 10 mod 10))
           (String (Decimal.digit (n mod 10)) "")
  end.

(** rapidityplot.cc, lines 19-23. *)
Definition to_string_2dp (val : double) : string := ostream_fixed_2 val.

Open Scope list_scope.

(* ================================================================= *)
(** ** The histogram *)

Inductive Error : Set :=
| InvalidGeometry
| GeometryMismatch.

Module Histogram.

(** Modelled from the spec: the class [Hist] of the Pythia8 library is
    not under src/; this is the Histogram of spec sections 3 and 4.1, a
    fixed-width one-dimensional accumulator with underflow and
    overflow, its edges, counts and moments being floats. *)
Record t : Type := mk {
  title : string;
  binCount : Z;
  lowEdge : double;
  highEdge : double;
  counts : list double;
  underflow : double;
  overflow : double;
  entries : Z;
  sumValues : double;
  sumSquares : double
}.

(** Modelled from the spec: the histogram as it is initialised, every
    accumulator at zero. *)
Definition book (title : string) (binCount : Z) (lowEdge highEdge : double) : t :=
  {| title := title; binCount := binCount;
     lowEdge := lowEdge; highEdge := highEdge;
     counts := repeat Binary64.zero (Z.to_nat binCount);
     underflow := Binary64.zero; overflow := Binary64.zero; entries := 0;
     sumValues := Binary64.zero; sumSquares := Binary64.zero |}.

(** Modelled from the spec: [create] fails with [InvalidGeometry] if
    [binCount <= 0] or [lowEdge >= highEdge]. *)
Definition create (title : string) (binCount : Z) (lowEdge highEdge : double)
  : Error + t :=
  if (binCount <=? 0) || Binary64.leb highEdge lowEdge
  then inl InvalidGeometry
  else inr (book title binCount lowEdge highEdge).

(** [floor((value - lowEdge) / (highEdge - lowEdge) * binCount)], each
    operation rounded. *)
Definition bin_index (h : t) (value : double) : option Z :=
  Binary64.floor
    (Binary64.mul
       (Binary64.div (Binary64.sub value (lowEdge h))
          (Binary64.sub (highEdge h) (lowEdge h)))
       (Binary64.of_Z (binCount h))).

Fixpoint add_at (i : nat) (w : double) (l : list double) : list double :=
  match l, i with
  | [], _ => []
  | c :: l', O => Binary64.add c w :: l'
  | c :: l', S i' => c :: add_at i' w l'
  end.

Definition add_count (index : Z) (w : double) (h : t) : t :=
  {| title := title h; binCount := binCount h;
     lowEdge := lowEdge h; highEdge := highEdge h;
     counts := add_at (Z.to_nat index) w (counts h);
     underflow := underflow h; overflow := overflow h;
     entries := entries h;
     sumValues := sumValues h; sumSquares := sumSquares h |}.

Definition add_underflow (w : double) (h : t) : t :=
  {| title := title h; binCount := binCount h;
     lowEdge := lowEdge h; highEdge := highEdge h;
     counts := counts h;
     underflow := Binary64.add (underflow h) w; overflow := overflow h;
     entries := entries h;
     sumValues := sumValues h; sumSquares := sumSquares h |}.

Definition add_overflow (w : double) (h : t) : t :=
  {| title := title h; binCount := binCount h;
     lowEdge := lowEdge h; highEdge := highEdge h;
     counts := counts h;
     underflow := underflow h; overflow := Binary64.add (overflow h) w;
     entries := entries h;
     sumValues := sumValues h; sumSquares := sumSquares h |}.

Definition tally (value weight : double) (h : t) : t :=
  {| title := title h; binCount := binCount h;
     lowEdge := lowEdge h; highEdge := highEdge h;
     counts := counts h;
     underflow := underflow h; overflow := overflow h;
     entries := entries h + 1;
     sumValues := Binary64.add (sumValues h) (Binary64.mul weight value);
     sumSquares :=
       Binary64.add (sumSquares h)
         (Binary64.mul (Binary64.mul weight value) value) |}.

(** Modelled from the spec: [fill(value, weight)].  The three bucket
    rules are applied one after the other, as the spec lists them; the
    entry count and the moments are updated in every case. *)
Definition fill (value weight : double) (h : t) : t :=
  let h1 := match bin_index h value with
            | Some index =>
                if (0 <=? index) && (index <? binCount h)
                then add_count index weight h else h
            | None => h
            end in
  let h2 := if Binary64.ltb value (lowEdge h)
            then add_underflow weight h1 else h1 in
  let h3 := if Binary64.leb (highEdge h) value
            then add_overflow weight h2 else h2 in
  tally value weight h3.

(** A sequence of fills, each a (value, weight) pair. *)
Definition fill_all (h : t) (fills : list (double * double)) : t :=
  fold_left (fun h vw => fill (fst vw) (snd vw) h) fills h.



(** The geometry fixed at creation. *)
Definition geometry (h : t) : Z * double * double :=
  (binCount h, lowEdge h, highEdge h).

End Histogram.

(* ================================================================= *)
(** ** Series and the plot composer *)

Record Series : Type := mkSeries {
  histogram : Histogram.t;
  styleToken : string;
  label : string
}.

Module PlotComposer.

(** Modelled from the spec: the class [HistPlot] of the Pythia8 library
    is not under src/; this is the PlotComposer of spec sections 3 and
    4.3, the frame description and the series in insertion order. *)
Record t : Type := mk {
  frameTitle : string;
  xLabel : string;
  yLabel : string;
  series : list Series
}.

Definition create (frameTitle xLabel yLabel : string) : t :=
  {| frameTitle := frameTitle; xLabel := xLabel; yLabel := yLabel;
     series := [] |}.

Definition compatible (h1 h2 : Histogram.t) : bool :=
  (Histogram.binCount h1 =? Histogram.binCount h2)
  && Binary64.eqb (Histogram.lowEdge h1) (Histogram.lowEdge h2)
  && Binary64.eqb (Histogram.highEdge h1) (Histogram.highEdge h2).

(** Modelled from the spec: [add] appends the series; the first series
    added defines the reference geometry and a later one that differs
    from it is refused with [GeometryMismatch]. *)
Definition add (s : Series) (pc : t) : Error + t :=
  let pc' := {| frameTitle := frameTitle pc; xLabel := xLabel pc;
                yLabel := yLabel pc; series := series pc ++ [s] |} in
  match series pc with
  | [] => inr pc'
  | ref :: _ =>
      if compatible (histogram ref) (histogram s) then inr pc'
      else inl GeometryMismatch
  end.

End PlotComposer.

(* ================================================================= *)
(** ** The event record and the generator *)

Module Particle.
(** The arguments of [Event::append(id, status, col, acol, px, py, pz, e, m)]. *)
Record t : Type := mk {
  id : Z;
  status : Z;
  col : Z;
  acol : Z;
  px : Q;
  py : Q;
  pz : Q;
  e : Q;
  m : Q
}.
End Particle.

Module Event.
(** Modelled from the spec: the class [Event] of the Pythia8 library is
    not under src/; the record of a trial is the finite sequence of
    entities of spec section 6, and [append] puts one entity at its end.
    What a new instance holds and what [reset] leaves are the library's:
    [Pythia_event] and [Event_after_reset] below. *)
Definition t : Type := list Particle.t.
Definition append (ev : t) (p : Particle.t) : t := ev ++ [p].
End Event.

(** The external generator, as the driver uses it.  [Pythia] is the state
    of one generator instance apart from its event record, which the
    driver reaches through the reference [event]. *)
Record Pythia8 : Type := {
  Pythia : Type;
  (** [Pythia pythia;] as executed by iteration [iMass] of the sweep: what
      the constructor builds may depend on the environment at that time. *)
  Pythia_new : nat -> Pythia;
  (** [pythia.readString(line)]; the driver ignores its result. *)
  Pythia_readString : string -> Pythia -> Pythia;
  (** [pythia.init()]: success flag and the instance afterwards. *)
  Pythia_init : Pythia -> bool * Pythia;
  (** [pythia.next()]: success flag, the instance and its event record
      afterwards. *)
  Pythia_next : Pythia -> Event.t -> bool * (Pythia * Event.t);
  (** [pythia.event] (line 50): the event record of an instance, as it
      stands when the event loop is reached. *)
  Pythia_event : Pythia -> Event.t;
  (** [event.reset()]: the record as the reset leaves it. *)
  Event_after_reset : Event.t -> Event.t;
  (** [pythia.particleData.m0(id)]. *)
  ParticleData_m0 : Pythia -> Z -> Q;
  sqrtpos : Q -> Q;
  (** [Particle::y()], the rapidity. *)
  Particle_y : Particle.t -> double
}.

(** The calls the driver makes on its collaborators. *)
Inductive Call : Type :=
| HistPlot_ctor (name : string)
| HistPlot_frame (name title xLabel yLabel : string)
| Pythia_ctor
| ReadString (line : string)
| Cout_initialising (smass : Q)
| Init (ok : bool)
| Hist_ctor (title : string) (nBin : Z) (xMin xMax : double)
| Event_reset
| Event_append (p : Particle.t)
| Next (ok : bool)
| Cout_generation_failed
| Hist_fill (x : double)
| Pythia_stat
| Cout_hist (h : Histogram.t)
| HistPlot_add (h : Histogram.t) (style label : string)
| HistPlot_plot.

(** How [main] ends: a [return] with an exit status, or an error raised
    by a collaborator and not handled. *)
Inductive Outcome : Type :=
| Returned (code : Z)
| Raised (e : Error).

(* ================================================================= *)
(** ** main (rapidityplot.cc, lines 25-113) *)

Definition masses : list Q := [5; 20; 100]%Q.
Definition plotColours : list string := ["steelblue"; "seagreen"; "indianred"].
Definition nEvent : Z := 1000000.
Definition qid : Z := 1.
Definition masslessQuarks : bool := true.

Definition frame_title : string :=
  "Rapidity distributions of primary hadrons for differing string energies".
Definition hist_title : string :=
  "Rapidity distribution dn/dy of primary hadrons".

(** How one iteration of the event loop ends. *)
Inductive Flow : Set := Continue | Break.

(** How one iteration of the sweep ends. *)
Inductive Step : Type :=
| InitFailed
| AddFailed (e : Error)
| Added (hpl : PlotComposer.t).

Section Driver.

Variable L : Pythia8.

(** Lines 92-98: the loop over the particles of the event record. *)
Fixpoint particle_loop (ps : list Particle.t) (dndy : Histogram.t)
  : Histogram.t * list Call :=
  match ps with
  | [] => (dndy, [])
  | p :: ps' =>
      let status := Particle.status p in
      if (status >? 80) && (status <? 90) then
        let x := Particle_y L p in
        let (dndy', calls) :=
          particle_loop ps' (Histogram.fill x Binary64.one dndy) in
        (dndy', Hist_fill x :: calls)
      else particle_loop ps' dndy
  end.

(** The two entities appended at lines 82-83. *)
Definition quark (smass : Q) (pythia : Pythia L) : Particle.t :=
  let mm := if masslessQuarks then 0%Q else ParticleData_m0 L pythia qid in
  let ee := (smass / 2)%Q in
  let pp := sqrtpos L (ee * ee - mm * mm)%Q in
  Particle.mk qid 23 101 0 0 0 pp ee mm.

Definition antiquark (smass : Q) (pythia : Pythia L) : Particle.t :=
  let mm := if masslessQuarks then 0%Q else ParticleData_m0 L pythia qid in
  let ee := (smass / 2)%Q in
  let pp := sqrtpos L (ee * ee - mm * mm)%Q in
  Particle.mk (- qid) 23 0 101 0 0 (- pp) ee mm.

(** Lines 77-98: the body of the event loop. *)
Definition trial (smass : Q) (pythia : Pythia L) (event : Event.t)
    (dndy : Histogram.t)
  : Flow * (Pythia L * Event.t * Histogram.t) * list Call :=
  let event := Event_after_reset L event in
  let event := Event.append event (quark smass pythia) in
  let event := Event.append event (antiquark smass pythia) in
  let setup := [Event_reset; Event_append (quark smass pythia);
                Event_append (antiquark smass pythia)] in
  let '(ok, (pythia', event')) := Pythia_next L pythia event in
  if negb ok then
    (Break, (pythia', event', dndy),
     setup ++ [Next false; Cout_generation_failed])
  else
    let (dndy', fills) := particle_loop event' dndy in
    (Continue, (pythia', event', dndy'), setup ++ Next true :: fills).

(** Lines 76-99: the event loop, [todo] iterations still to run. *)
Fixpoint event_loop (todo : nat) (smass : Q) (pythia : Pythia L)
    (event : Event.t) (dndy : Histogram.t)
  : (Pythia L * Event.t * Histogram.t) * list Call :=
  match todo with
  | O => ((pythia, event, dndy), [])
  | S todo' =>
      match trial smass pythia event dndy with
      | (Break, st, calls) => (st, calls)
      | (Continue, (pythia', event', dndy'), calls) =>
          let (st, calls') := event_loop todo' smass pythia' event' dndy' in
          (st, calls ++ calls')
      end
  end.

(** Lines 55-64: the settings. *)
Definition settings : list string :=
  ["ProcessLevel:all = off"; "HadronLevel:Decay = off";
   "StringPT:sigma = 0"; "Next:numberCount = 100000"].

Definition configured (iMass : nat) : Pythia L :=
  fold_left (fun pythia line => Pythia_readString L line pythia)
    settings (Pythia_new L iMass).

Definition style_of (iMass : nat) : string :=
  ("--," ++ nth iMass plotColours "")%string.
Definition label_of (smass : Q) : string :=
  (to_string_2dp (Binary64.of_Q smass) ++ " GeV string")%string.

(** Lines 46-107: the body of the loop over the string masses.  The
    indices [iMass] the sweep uses are inside [masses] and [plotColours]. *)
Definition configuration (iMass : nat) (hpl : PlotComposer.t)
  : Step * list Call :=
  let smass := nth iMass masses 0%Q in
  let pythia := configured iMass in
  let '(ok, pythia) := Pythia_init L pythia in
  let start := Pythia_ctor :: map ReadString settings
               ++ [Cout_initialising smass; Init ok] in
  if negb ok then (InitFailed, start)
  else
    let dndy :=
      Histogram.book hist_title 100 (Binary64.of_Z (-10)) (Binary64.of_Z 10) in
    let '((_, _, dndy), calls) :=
      event_loop (Z.to_nat (nEvent - 0)) smass pythia (Pythia_event L pythia)
        dndy in
    let report := [Pythia_stat; Cout_hist dndy;
                   HistPlot_add dndy (style_of iMass) (label_of smass)] in
    let log := start
               ++ Hist_ctor hist_title 100 (Binary64.of_Z (-10)) (Binary64.of_Z 10)
                  :: calls ++ report in
    match PlotComposer.add
            (mkSeries dndy (style_of iMass) (label_of smass)) hpl with
    | inl e => (AddFailed e, log)
    | inr hpl' => (Added hpl', log)
    end.

(** Lines 45-108: the sweep, [todo] masses still to run; [Some] is an
    exit from inside the loop: [return 1] at line 69, or an error raised
    by [hpl.add]. *)
Fixpoint mass_loop (todo : nat) (iMass : nat) (hpl : PlotComposer.t)
  : option Outcome * PlotComposer.t * list Call :=
  match todo with
  | O => (None, hpl, [])
  | S todo' =>
      match configuration iMass hpl with
      | (InitFailed, calls) => (Some (Returned 1), hpl, calls)
      | (AddFailed e, calls) => (Some (Raised e), hpl, calls)
      | (Added hpl', calls) =>
          let '(r, hpl'', calls') := mass_loop todo' (S iMass) hpl' in
          (r, hpl'', calls ++ calls')
      end
  end.

(** Lines 25-113. *)
Definition main : Outcome * PlotComposer.t * list Call :=
  let hpl := PlotComposer.create frame_title "y" "n" in
  let start := [HistPlot_ctor "rapidityplot";
                HistPlot_frame "rapidityplot" frame_title "y" "n"] in
  match mass_loop (List.length masses - 0) 0 hpl with
  | (Some out, hpl', calls) => (out, hpl', start ++ calls)
  | (None, hpl', calls) => (Returned 0, hpl', start ++ calls ++ [HistPlot_plot])
  end.

End Driver.

(* ================================================================= *)
(** ** Vocabulary of the statements *)

(** The text [-ip.d1d2], the minus sign present when [negative]. *)
Definition fixed_2dp (negative : bool) (ip : string) (d1 d2 : ascii) : string :=
  ((if negative then "-" else "") ++ ip ++ "." ++ String d1 (String d2 ""))%string.

(** The number that [ip.d1d2] denotes. *)
Definition fixed_value (ip : string) (d1 d2 : ascii) : Q :=
  (inject_Z (Decimal.read ip)
   + inject_Z (10 * Decimal.digit_value d1 + Decimal.digit_value d2) / 100)%Q.

(** The status range of primary hadrons produced by fragmentation. *)
Definition primary (status : Z) : Prop := 80 < status < 90.

Definition primaryb (status : Z) : bool := (80 <? status) && (status <? 90).

(** The rapidities of the entities of a record that qualify for the
    histogram, in the order of the record. *)
Definition qualifying (L : Pythia8) (ev : Event.t) : list double :=
  flat_map (fun p => if primaryb (Particle.status p)
                     then [Particle_y L p] else []) ev.

(** Fills of weight 1, the only ones the driver makes. *)
Definition unit_weight (xs : list double) : list (double * double) :=
  map (fun x => (x, Binary64.one)) xs.

(** Projections of a list of calls. *)
Definition fills_of (calls : list Call) : list double :=
  flat_map (fun c => match c with Hist_fill x => [x] | _ => [] end) calls.

Definition attempts (calls : list Call) : list bool :=
  flat_map (fun c => match c with Next ok => [ok] | _ => [] end) calls.

Definition adds_of (calls : list Call) : list Series :=
  flat_map (fun c => match c with
                     | HistPlot_add h style label => [mkSeries h style label]
                     | _ => []
                     end) calls.

Definition announced (calls : list Call) : list Q :=
  flat_map (fun c => match c with Cout_initialising smass => [smass] | _ => [] end)
    calls.

Definition is_frame (c : Call) : bool :=
  match c with HistPlot_frame _ _ _ _ => true | _ => false end.
Definition is_add (c : Call) : bool :=
  match c with HistPlot_add _ _ _ => true | _ => false end.
Definition is_plot (c : Call) : bool :=
  match c with HistPlot_plot => true | _ => false end.

Definition count (P : Call -> bool) (calls : list Call) : nat :=
  List.length (filter P calls).

(** No call satisfying [P] comes after a call satisfying [Q]. *)
Fixpoint never_after (P Q : Call -> bool) (calls : list Call) : bool :=
  match calls with
  | [] => true
  | c :: rest =>
      (if Q c then forallb (fun d => negb (P d)) rest else true)
      && never_after P Q rest
  end.

(** The calls an event loop can make. *)
Definition trial_call (c : Call) : bool :=
  match c with
  | Event_reset | Event_append _ | Next _ | Cout_generation_failed
  | Hist_fill _ => true
  | _ => false
  end.

(** The calls that open [main]. *)
Definition main_start : list Call :=
  [HistPlot_ctor "rapidityplot";
   HistPlot_frame "rapidityplot" frame_title "y" "n"].

(** The record a trial hands to the generator: what the reset leaves,
    then the two entities. *)
Definition seeded (L : Pythia8) (smass : Q) (pythia : Pythia L)
    (event : Event.t) : Event.t :=
  Event.append
    (Event.append (Event_after_reset L event) (quark L smass pythia))
    (antiquark L smass pythia).

(** The calls that open a trial. *)
Definition trial_setup (L : Pythia8) (smass : Q) (pythia : Pythia L) : list Call :=
  [Event_reset; Event_append (quark L smass pythia);
   Event_append (antiquark L smass pythia)].

(** The geometry of every histogram the driver books. *)
Definition standard (h : Histogram.t) : Prop :=
  Histogram.geometry h = (100, Binary64.of_Z (-10), Binary64.of_Z 10).

Section Sweep.

Variable L : Pythia8.

(** Whether the generator of configuration [iMass] initialises. *)
Definition init_ok (iMass : nat) : bool :=
  fst (Pythia_init L (configured L iMass)).

(** The event loop of configuration [iMass], once initialised. *)
Definition config_events (iMass : nat)
  : (Pythia L * Event.t * Histogram.t) * list Call :=
  event_loop L (Z.to_nat (nEvent - 0)) (nth iMass masses 0%Q)
    (snd (Pythia_init L (configured L iMass)))
    (Pythia_event L (snd (Pythia_init L (configured L iMass))))
    (Histogram.book hist_title 100 (Binary64.of_Z (-10)) (Binary64.of_Z 10)).

Definition config_hist (iMass : nat) : Histogram.t :=
  snd (fst (config_events iMass)).

Definition config_series (iMass : nat) : Series :=
  mkSeries (config_hist iMass) (style_of iMass)
    (label_of (nth iMass masses 0%Q)).

(** The calls of a configuration up to and including [init]. *)
Definition config_start (iMass : nat) : list Call :=
  Pythia_ctor :: map ReadString settings
  ++ [Cout_initialising (nth iMass masses 0%Q); Init (init_ok iMass)].

(** The calls of a configuration whose generator initialised. *)
Definition config_log (iMass : nat) : list Call :=
  config_start iMass
  ++ Hist_ctor hist_title 100 (Binary64.of_Z (-10)) (Binary64.of_Z 10)
     :: snd (config_events iMass)
  ++ [Pythia_stat; Cout_hist (config_hist iMass);
      HistPlot_add (config_hist iMass) (style_of iMass)
        (label_of (nth iMass masses 0%Q))].

(** How many of the next [todo] configurations, from [iMass] on, run
    before one fails to initialise. *)
Fixpoint ran (todo iMass : nat) : nat :=
  match todo with
  | O => O
  | S todo' => if init_ok iMass then S (ran todo' (S iMass)) else O
  end.

(** The records produced by the successive trials of an event loop, up
    to its first failure. *)
Fixpoint generated (todo : nat) (smass : Q) (pythia : Pythia L)
    (event : Event.t) : list Event.t :=
  match todo with
  | O => []
  | S todo' =>
      let '(ok, (pythia', event')) :=
        Pythia_next L pythia (seeded L smass pythia event) in
      if ok then event' :: generated todo' smass pythia' event' else []
  end.

(** The same library with other generator instances. *)
Definition with_instances (new : nat -> Pythia L) : Pythia8 :=
  {| Pythia := Pythia L;
     Pythia_new := new;
     Pythia_readString := Pythia_readString L;
     Pythia_init := Pythia_init L;
     Pythia_next := Pythia_next L;
     Pythia_event := Pythia_event L;
     Event_after_reset := Event_after_reset L;
     ParticleData_m0 := ParticleData_m0 L;
     sqrtpos := sqrtpos L;
     Particle_y := Particle_y L |}.

End Sweep.

(** The lifecycle of the plot as the specification words it: the frame is
    set exactly once and before any series is added, no series is added
    after the plot is rendered, and the plot is rendered exactly once. *)
Definition lifecycle_as_stated (L : Pythia8) : Prop :=
  let calls := snd (main L) in
  count is_frame calls = 1%nat
  /\ never_after is_frame is_add calls = true
  /\ never_after is_add is_plot calls = true
  /\ count is_plot calls = 1%nat.

(** The start of a trial as the specification words it: the record is
    reset to empty and exactly two entities are appended, so generation
    starts from those two alone. *)
Definition trial_record_as_stated (L : Pythia8) : Prop :=
  forall smass pythia event,
    seeded L smass pythia event
    = [quark L smass pythia; antiquark L smass pythia].

(* ================================================================= *)
(** ** Scripted generators *)

Module Script.

(** A generator that follows a script: whether each configuration
    initialises, and for each trial of each configuration the hadrons
    it appends to the record ([None]: the generation fails). *)
Record t : Type := mk {
  init_script : nat -> bool;
  trial_script : nat -> nat -> option (list Particle.t)
}.

(** Exact on the squares of rationals in lowest terms. *)
Definition root (q : Q) : Q :=
  if Qle_bool q 0 then 0%Q else (Z.sqrt (Qnum q) # Pos.sqrt (Qden q)).

(** The entry that the reset of the library's event record keeps at
    line 0, standing for the whole system. *)
Definition system_line : Particle.t := Particle.mk 90 (-11) 0 0 0 0 0 0 0.

(** The state of an instance: its configuration and the trials made.
    The rapidity of a scripted hadron is read from its [pz]; the record
    of a new instance is empty and a reset leaves the system line. *)
Definition lib (s : t) : Pythia8 :=
  {| Pythia := nat * nat;
     Pythia_new := fun iMass => (iMass, O);
     Pythia_readString := fun _ pythia => pythia;
     Pythia_init := fun pythia => (init_script s (fst pythia), pythia);
     Pythia_next := fun pythia event =>
       match trial_script s (fst pythia) (snd pythia) with
       | Some hadrons => (true, ((fst pythia, S (snd pythia)), event ++ hadrons))
       | None => (false, ((fst pythia, S (snd pythia)), event))
       end;
     Pythia_event := fun _ => [];
     Event_after_reset := fun _ => [system_line];
     ParticleData_m0 := fun _ _ => 0%Q;
     sqrtpos := root;
     Particle_y := fun p => Binary64.of_Q (Particle.pz p) |}.

Definition hadron (id status : Z) (y : Q) : Particle.t :=
  Particle.mk id status 0 0 0 0 y 1 0.

Definition hadrons : list Particle.t :=
  [hadron 211 83 (1 # 2); hadron (-211) 84 (- (3 # 2));
   hadron 111 91 3; hadron 2212 80 1; hadron 321 89 (-12); hadron 22 90 0].

(** No generator initialises. *)
Definition no_init : t :=
  {| init_script := fun _ => false; trial_script := fun _ _ => None |}.

(** Every generator initialises, makes one trial and fails on the next. *)
Definition one_trial : t :=
  {| init_script := fun _ => true;
     trial_script := fun _ k => if Nat.eqb k 0 then Some hadrons else None |}.

(** As [one_trial], but only the first generator initialises. *)
Definition second_init_fails : t :=
  {| init_script := fun iMass => Nat.eqb iMass 0;
     trial_script := fun _ k => if Nat.eqb k 0 then Some hadrons else None |}.

End Script.

(* ================================================================= *)
(** ** The order of the calls *)

(** Where a run stands between two calls. *)
Inductive Phase : Type :=
| AtStart
| Constructed
| Sweeping
| Built (remaining : list string)
| Announced
| Initialised
| Looping
| Reset0
| Reset1
| Reset2
| Scanning
| Failed
| Broken
| Reported
| Printed
| Done
| Dead.

(** The calls the driver may make in each phase: the plot is constructed
    and framed; a generator is constructed, given the four settings in
    order, announced and initialised; a histogram is booked; each trial
    resets the record, appends two entities and generates, and fills only
    after a successful generation; statistics, the histogram print and the
    add close a configuration.  Nothing follows a failed initialisation or
    the plot. *)
Definition step (ph : Phase) (c : Call) : option Phase :=
  match ph, c with
  | AtStart, HistPlot_ctor _ => Some Constructed
  | Constructed, HistPlot_frame _ _ _ _ => Some Sweeping
  | Sweeping, Pythia_ctor => Some (Built settings)
  | Sweeping, HistPlot_plot => Some Done
  | Built (expected :: rest), ReadString line =>
      if String.eqb line expected then Some (Built rest) else None
  | Built [], Cout_initialising _ => Some Announced
  | Announced, Init true => Some Initialised
  | Announced, Init false => Some Dead
  | Initialised, Hist_ctor _ _ _ _ => Some Looping
  | Looping, Event_reset => Some Reset0
  | Scanning, Event_reset => Some Reset0
  | Reset0, Event_append _ => Some Reset1
  | Reset1, Event_append _ => Some Reset2
  | Reset2, Next true => Some Scanning
  | Reset2, Next false => Some Failed
  | Scanning, Hist_fill _ => Some Scanning
  | Failed, Cout_generation_failed => Some Broken
  | Looping, Pythia_stat => Some Reported
  | Scanning, Pythia_stat => Some Reported
  | Broken, Pythia_stat => Some Reported
  | Reported, Cout_hist _ => Some Printed
  | Printed, HistPlot_add _ _ _ => Some Sweeping
  | _, _ => None
  end.

(** Following a list of calls from a phase; [None] when a call is out of
    order. *)
Fixpoint follow (ph : Phase) (calls : list Call) : option Phase :=
  match calls with
  | [] => Some ph
  | c :: rest =>
      match step ph c with
      | Some ph' => follow ph' rest
      | None => None
      end
  end.

(** The same library with another [next]. *)
Definition with_next (L : Pythia8)
    (next : Pythia L -> Event.t -> bool * (Pythia L * Event.t)) : Pythia8 :=
  {| Pythia := Pythia L;
     Pythia_new := Pythia_new L;
     Pythia_readString := Pythia_readString L;
     Pythia_init := Pythia_init L;
     Pythia_next := next;
     Pythia_event := Pythia_event L;
     Event_after_reset := Event_after_reset L;
     ParticleData_m0 := ParticleData_m0 L;
     sqrtpos := sqrtpos L;
     Particle_y := Particle_y L |}.


Definition is_pythia_ctor (c : Call) : bool :=
  match c with Pythia_ctor => true | _ => false end.
Definition is_init (c : Call) : bool :=
  match c with Init _ => true | _ => false end.
Definition is_init_ok (c : Call) : bool :=
  match c with Init true => true | _ => false end.
Definition is_hist_ctor (c : Call) : bool :=
  match c with Hist_ctor _ _ _ _ => true | _ => false end.

(** The phases an event loop can be entered in, and those it can end in. *)
Definition loop_entry (ph : Phase) : Prop := ph = Looping \/ ph = Scanning.
Definition loop_exit (ph : Phase) : Prop :=
  ph = Looping \/ ph = Scanning \/ ph = Broken.

(* ================================================================= *)
(** * Proofs *)

Open Scope Z_scope.

(** ** Decimal output *)

Lemma digit_is_digit d : 0 <= d < 10 -> Decimal.is_digit (Decimal.digit d) = true.
Proof.
  intros H.
  assert (E : d = 0 \/ d = 1 \/ d = 2 \/ d = 3 \/ d = 4 \/ d = 5 \/ d = 6
              \/ d = 7 \/ d = 8 \/ d = 9) by lia.
  repeat (destruct E as [E | E]; [subst d; reflexivity |]).
  subst d; reflexivity.
Qed.

Lemma digit_value_digit d : 0 <= d < 10 -> Decimal.digit_value (Decimal.digit d) = d.
Proof.
  intros H.
  assert (E : d = 0 \/ d = 1 \/ d = 2 \/ d = 3 \/ d = 4 \/ d = 5 \/ d = 6
              \/ d = 7 \/ d = 8 \/ d = 9) by lia.
  repeat (destruct E as [E | E]; [subst d; reflexivity |]).
  subst d; reflexivity.
Qed.

Lemma read_onto_app s1 s2 a :
  Decimal.read_onto a (s1 ++ s2)%string = Decimal.read_onto (Decimal.read_onto a s1) s2.
Proof. revert a; induction s1 as [|c s1 IH]; intros a; simpl; auto. Qed.

Lemma all_digits_app s1 s2 :
  Decimal.all_digits (s1 ++ s2)%string = Decimal.all_digits s1 && Decimal.all_digits s2.
Proof. induction s1 as [|c s1 IH]; simpl; auto. rewrite IH, andb_assoc; auto. Qed.

Lemma digits_onto_S fuel n acc :
  Decimal.digits_onto (S fuel) n acc =
  if n / 10 =? 0 then String (Decimal.digit (n mod 10)) acc
  else Decimal.digits_onto fuel (n / 10) (String (Decimal.digit (n mod 10)) acc).
Proof. reflexivity. Qed.

Lemma digits_onto_spec k : forall n acc,
  0 <= n < 2 ^ Z.of_nat (S k) ->
  exists s, Decimal.digits_onto (S k) n acc = (s ++ acc)%string
    /\ s <> ""%string /\ Decimal.all_digits s = true
    /\ forall a, Decimal.read_onto a s = a * 10 ^ Z.of_nat (String.length s) + n.
Proof.
  induction k as [|k IH]; intros n acc Hn.
  - assert (n = 0 \/ n = 1) as [-> | ->] by (change (2 ^ Z.of_nat 1) with 2 in Hn; lia).
    + exists "0"%string. repeat split; [discriminate |].
      intros a. cbn [Decimal.read_onto String.length].
      change (Decimal.digit_value "0") with 0. change (10 ^ Z.of_nat 1) with 10. lia.
    + exists "1"%string. repeat split; [discriminate |].
      intros a. cbn [Decimal.read_onto String.length].
      change (Decimal.digit_value "1") with 1. change (10 ^ Z.of_nat 1) with 10. lia.
  - rewrite digits_onto_S.
    assert (Hm : 0 <= n mod 10 < 10) by (apply Z.mod_pos_bound; lia).
    destruct (n / 10 =? 0) eqn:E.
    + apply Z.eqb_eq in E.
      exists (String (Decimal.digit (n mod 10)) ""). cbn [append Decimal.all_digits String.length].
      rewrite digit_is_digit by assumption.
      repeat split; [discriminate |].
      intros a. cbn [Decimal.read_onto]. rewrite digit_value_digit by assumption.
      change (10 ^ Z.of_nat 1) with 10.
      pose proof (Z.div_mod n 10 ltac:(lia)). lia.
    + apply Z.eqb_neq in E.
      destruct (IH (n / 10) (String (Decimal.digit (n mod 10)) acc)) as (s & Hs & Hne & Hd & Hr).
      { split; [apply Z.div_pos; lia |].
        apply Z.div_lt_upper_bound; [lia |].
        replace (Z.of_nat (S (S k))) with (Z.succ (Z.of_nat (S k))) in Hn by lia.
        rewrite Z.pow_succ_r in Hn by lia. lia. }
      exists (s ++ String (Decimal.digit (n mod 10)) "")%string.
      repeat split.
      * rewrite Hs. clear. induction s; simpl; congruence.
      * destruct s; [congruence | discriminate].
      * rewrite all_digits_app, Hd. cbn [Decimal.all_digits andb]. rewrite digit_is_digit by assumption. reflexivity.
      * intros a. rewrite read_onto_app, Hr. cbn [Decimal.read_onto].
        rewrite digit_value_digit by assumption.
        assert (HL : Z.of_nat (String.length (s ++ String (Decimal.digit (n mod 10)) "")) = Z.succ (Z.of_nat (String.length s))).
        { clear. induction s; cbn [append String.length]; lia. }
        rewrite HL, Z.pow_succ_r by lia.
        pose proof (Z.div_mod n 10 ltac:(lia)). lia.
Qed.

Lemma numeral_spec n : 0 <= n ->
  Decimal.numeral n <> ""%string /\ Decimal.all_digits (Decimal.numeral n) = true
  /\ Decimal.read (Decimal.numeral n) = n.
Proof.
  intros Hn. unfold Decimal.numeral.
  destruct (digits_onto_spec (Z.to_nat (Z.log2 n)) n ""%string) as (s & Hs & Hne & Hd & Hr).
  { split; [assumption |].
    rewrite Nat2Z.inj_succ, Z2Nat.id by apply Z.log2_nonneg.
    destruct (Z.eq_dec n 0) as [-> | Hz]; [reflexivity |].
    apply Z.log2_spec; lia. }
  assert (Es : (s ++ "")%string = s) by (clear; induction s; simpl; congruence).
  rewrite Hs, Es. repeat split; auto.
  unfold Decimal.read. rewrite Hr. lia.
Qed.

Open Scope Q_scope.

Lemma round_half_even_bounds q : 0 <= q ->
  (0 <= round_half_even q)%Z /\ Qabs (inject_Z (round_half_even q) - q) <= 1 # 2.
Proof.
  intros Hq. unfold round_half_even.
  pose proof (Qfloor_le q) as Hlo. pose proof (Qlt_floor q) as Hhi.
  assert (Hf : (0 <= Qfloor q)%Z).
  { change 0%Z with (Qfloor 0). apply Qfloor_resp_le; assumption. }
  rewrite inject_Z_plus in Hhi. change (inject_Z 1) with 1 in Hhi.
  destruct (Qcompare_spec (q - inject_Z (Qfloor q)) (1 # 2)) as [E | E | E].
  - destruct (Z.even (Qfloor q)); (split; [lia |]); apply Qabs_Qle_condition;
      rewrite ?inject_Z_plus; change (inject_Z 1) with 1; split; lra.
  - split; [lia |]. apply Qabs_Qle_condition; split; lra.
  - split; [lia |]. apply Qabs_Qle_condition.
    rewrite inject_Z_plus; change (inject_Z 1) with 1; split; lra.
Qed.

Lemma two_decimals_value n : (0 <= n)%Z ->
  inject_Z (n / 100) + inject_Z (10 * (n / 10 mod 10) + n mod 10) / 100
  == inject_Z n / 100.
Proof.
  intros Hn.
  assert (E : (n = 100 * (n / 100) + (10 * (n / 10 mod 10) + n mod 10))%Z).
  { pose proof (Z.div_mod n 10 ltac:(lia)).
    pose proof (Z.div_mod (n / 10) 10 ltac:(lia)).
    rewrite Z.div_div in * by lia. change (10 * 10)%Z with 100%Z in *. lia. }
  set (a := (n / 100)%Z) in *. set (b := (n / 10 mod 10)%Z) in *.
  set (c := (n mod 10)%Z) in *. clearbody a b c. subst n.
  rewrite !inject_Z_plus, !inject_Z_mult.
  change (inject_Z 100) with 100. change (inject_Z 10) with 10. field.
Qed.

Lemma magnitude_nonneg x : 0 <= Binary64.magnitude x.
Proof.
  destruct x as [s | s | | s m e]; cbn [Binary64.magnitude]; try apply Qle_refl.
  destruct e as [| k | k].
  - change 0 with (inject_Z 0). rewrite <- Zle_Qle. lia.
  - change 0 with (inject_Z 0). rewrite <- Zle_Qle.
    pose proof (Z.pow_pos_nonneg 2 (Zpos k)). lia.
  - unfold Qle. cbn. lia.
Qed.

Lemma to_string_2dp_finite x : Binary64.finite x = true ->
  to_string_2dp x =
  ((if Binary64.sign_bit x then "-" else "")
   ++ Decimal.numeral (round_half_even (Binary64.magnitude x * 100) / 100)
   ++ "."
   ++ String (Decimal.digit (round_half_even (Binary64.magnitude x * 100) / 10 mod 10))
        (String (Decimal.digit (round_half_even (Binary64.magnitude x * 100) mod 10))
           ""))%string.
Proof. destruct x; [reflexivity | discriminate | discriminate | reflexivity]. Qed.

Lemma to_string_2dp_shape x : Binary64.finite x = true ->
  exists ip d1 d2,
    to_string_2dp x = fixed_2dp (Binary64.sign_bit x) ip d1 d2
    /\ ip <> ""%string
    /\ Decimal.all_digits ip = true
    /\ Decimal.is_digit d1 = true /\ Decimal.is_digit d2 = true
    /\ Qabs (fixed_value ip d1 d2 - Binary64.magnitude x) <= 1 # 200.
Proof.
  intros Hx. rewrite (to_string_2dp_finite x Hx). unfold fixed_2dp.
  set (n := round_half_even (Binary64.magnitude x * 100)).
  destruct (round_half_even_bounds (Binary64.magnitude x * 100)) as [Hn Hb].
  { pose proof (magnitude_nonneg x). nra. }
  fold n in Hn, Hb.
  destruct (numeral_spec (n / 100)) as (Hne & Hd & Hr).
  { apply Z.div_pos; lia. }
  assert (H1 : (0 <= n / 10 mod 10 < 10)%Z) by (apply Z.mod_pos_bound; lia).
  assert (H2 : (0 <= n mod 10 < 10)%Z) by (apply Z.mod_pos_bound; lia).
  exists (Decimal.numeral (n / 100)), (Decimal.digit (n / 10 mod 10)),
    (Decimal.digit (n mod 10)).
  repeat split; auto using digit_is_digit.
  unfold fixed_value. rewrite Hr, !digit_value_digit by assumption.
  rewrite two_decimals_value by assumption.
  apply Qabs_Qle_condition in Hb. apply Qabs_Qle_condition.
  assert (Ed : inject_Z n / 100 == inject_Z n * (1 # 100)) by field.
  rewrite Ed. split; lra.
Qed.







(** The two zeros are printed apart. *)
Example to_string_2dp_zeros :
  to_string_2dp (S754_zero false) = "0.00"%string
  /\ to_string_2dp (S754_zero true) = "-0.00"%string.
Proof. vm_compute. split; reflexivity. Qed.

Example to_string_2dp_masses :
  map (fun smass => to_string_2dp (Binary64.of_Q smass)) masses
  = ["5.00"; "20.00"; "100.00"]%string.
Proof. vm_compute. reflexivity. Qed.

Example to_string_2dp_rounds :
  map (fun q => to_string_2dp (Binary64.of_Q q))
    [1 # 8; 3 # 8; - (1999 # 1000); 123456789 # 1000; - (1 # 1000)]
  = ["0.12"; "0.38"; "-2.00"; "123456.79"; "-0.00"]%string.
Proof. vm_compute. reflexivity. Qed.

Close Scope Q_scope.
Open Scope Z_scope.

(** ** The histogram *)

Module HistogramFacts.
Import Histogram.

Lemma add_at_length i w l : List.length (add_at i w l) = List.length l.
Proof. revert i; induction l as [|c l IH]; intros [|i]; simpl; auto. Qed.

Ltac fill_by_cases h v :=
  unfold fill;
  destruct (bin_index h v) as [index |];
  [destruct ((0 <=? index)%Z && (index <? binCount h)%Z) |];
  destruct (Binary64.ltb v (lowEdge h)), (Binary64.leb (highEdge h) v);
  cbn [tally add_count add_underflow add_overflow title binCount lowEdge
       highEdge counts entries];
  rewrite ?add_at_length; reflexivity.

Lemma fill_binCount v w h : binCount (fill v w h) = binCount h.
Proof. fill_by_cases h v. Qed.

Lemma fill_lowEdge v w h : lowEdge (fill v w h) = lowEdge h.
Proof. fill_by_cases h v. Qed.

Lemma fill_highEdge v w h : highEdge (fill v w h) = highEdge h.
Proof. fill_by_cases h v. Qed.

Lemma fill_title v w h : title (fill v w h) = title h.
Proof. fill_by_cases h v. Qed.

Lemma fill_counts_length v w h :
  List.length (counts (fill v w h)) = List.length (counts h).
Proof. fill_by_cases h v. Qed.

Lemma fill_geometry v w h : geometry (fill v w h) = geometry h.
Proof.
  unfold geometry. rewrite fill_binCount, fill_lowEdge, fill_highEdge. reflexivity.
Qed.


Lemma fill_all_cons h v w fills :
  fill_all h ((v, w) :: fills) = fill_all (fill v w h) fills.
Proof. reflexivity. Qed.


Lemma fill_all_geometry h fills : geometry (fill_all h fills) = geometry h.
Proof.
  revert h; induction fills as [|[v w] fills IH]; intros h; [reflexivity |].
  rewrite fill_all_cons, IH. apply fill_geometry.
Qed.

Lemma fill_all_app h fills1 fills2 :
  fill_all h (fills1 ++ fills2) = fill_all (fill_all h fills1) fills2.
Proof. apply fold_left_app. Qed.

End HistogramFacts.


(** The bin placements of the specification, on ten bins over [0, 10]. *)
Example bin_placement :
  let h := Histogram.book "h" 10 (Binary64.of_Z 0) (Binary64.of_Z 10) in
  Histogram.bin_index h (Binary64.of_Z 5) = Some 5
  /\ Histogram.bin_index h (Binary64.of_Q (9999 # 1000)) = Some 9
  /\ Histogram.overflow (Histogram.fill (Binary64.of_Z 10) Binary64.one h)
     = Binary64.one
  /\ Histogram.underflow
       (Histogram.fill (Binary64.of_Q (- (1 # 1000))) Binary64.one h)
     = Binary64.one.
Proof. vm_compute. repeat split. Qed.

(** ** The driver *)

Lemma fills_of_app l1 l2 : fills_of (l1 ++ l2) = fills_of l1 ++ fills_of l2.
Proof. apply flat_map_app. Qed.

Lemma attempts_app l1 l2 : attempts (l1 ++ l2) = attempts l1 ++ attempts l2.
Proof. apply flat_map_app. Qed.

Lemma adds_of_app l1 l2 : adds_of (l1 ++ l2) = adds_of l1 ++ adds_of l2.
Proof. apply flat_map_app. Qed.

Lemma announced_app l1 l2 : announced (l1 ++ l2) = announced l1 ++ announced l2.
Proof. apply flat_map_app. Qed.

Lemma fills_of_fills xs : fills_of (map Hist_fill xs) = xs.
Proof. unfold fills_of. induction xs as [|x xs IH]; cbn; congruence. Qed.

Lemma attempts_fills xs : attempts (map Hist_fill xs) = [].
Proof. unfold attempts. induction xs as [|x xs IH]; cbn; congruence. Qed.

Lemma unit_weight_app xs ys : unit_weight (xs ++ ys) = unit_weight xs ++ unit_weight ys.
Proof. apply map_app. Qed.

Lemma unit_weight_all_one xs :
  Forall (fun vw => snd vw = Binary64.one) (unit_weight xs).
Proof. induction xs; cbn; constructor; auto. Qed.

Section DriverFacts.

Variable L : Pythia8.

Lemma particle_loop_spec ps : forall dndy,
  particle_loop L ps dndy =
  (Histogram.fill_all dndy (unit_weight (qualifying L ps)),
   map Hist_fill (qualifying L ps)).
Proof.
  induction ps as [|p ps IH]; intros dndy; [reflexivity |].
  cbn [particle_loop qualifying flat_map]. unfold primaryb.
  rewrite Z.gtb_ltb.
  destruct ((80 <? Particle.status p) && (Particle.status p <? 90)).
  - rewrite IH. reflexivity.
  - apply IH.
Qed.

Lemma trial_spec smass pythia event dndy :
  trial L smass pythia event dndy =
  let '(ok, (pythia', event')) :=
    Pythia_next L pythia (seeded L smass pythia event) in
  if ok then
    (Continue,
     (pythia', event',
      Histogram.fill_all dndy (unit_weight (qualifying L event'))),
     trial_setup L smass pythia ++ Next true :: map Hist_fill (qualifying L event'))
  else
    (Break, (pythia', event', dndy),
     trial_setup L smass pythia ++ [Next false; Cout_generation_failed]).
Proof.
  unfold trial. fold (seeded L smass pythia event).
  destruct (Pythia_next L pythia _) as [[|] [pythia' event']]; cbn [negb].
  - rewrite particle_loop_spec. reflexivity.
  - reflexivity.
Qed.

Lemma event_loop_spec todo : forall smass pythia event dndy,
  exists pythia' event' before,
    event_loop L todo smass pythia event dndy =
    ((pythia', event',
      Histogram.fill_all dndy
        (unit_weight (flat_map (qualifying L) (generated L todo smass pythia event)))),
     before ++ (if (List.length (generated L todo smass pythia event) <? todo)%nat
                then [Next false; Cout_generation_failed] else []))
    /\ fills_of before = flat_map (qualifying L) (generated L todo smass pythia event)
    /\ attempts before = repeat true (List.length (generated L todo smass pythia event)).
Proof.
  induction todo as [|todo IH]; intros smass pythia event dndy.
  - exists pythia, event, []. repeat split.
  - cbn [event_loop generated]. rewrite trial_spec.
    destruct (Pythia_next L pythia _) as [[|] [pythia1 event1]].
    + destruct (IH smass pythia1 event1
                  (Histogram.fill_all dndy (unit_weight (qualifying L event1))))
        as (pythia' & event' & before & E & Hf & Ha).
      rewrite E.
      exists pythia', event',
        ((trial_setup L smass pythia ++ Next true :: map Hist_fill (qualifying L event1))
         ++ before).
      cbn [flat_map List.length]. repeat split.
      * rewrite unit_weight_app, HistogramFacts.fill_all_app.
        change (S (List.length (generated L todo smass pythia1 event1)) <? S todo)%nat
          with (List.length (generated L todo smass pythia1 event1) <? todo)%nat.
        rewrite <- !app_assoc. reflexivity.
      * rewrite !fills_of_app, Hf. cbn [trial_setup fills_of flat_map app].
        fold (fills_of (map Hist_fill (qualifying L event1))).
        rewrite fills_of_fills. reflexivity.
      * rewrite !attempts_app, Ha. cbn [trial_setup attempts flat_map app].
        fold (attempts (map Hist_fill (qualifying L event1))).
        rewrite attempts_fills. reflexivity.
    + exists pythia1, event1, (trial_setup L smass pythia). repeat split.
Qed.

End DriverFacts.

Lemma add_standard s pc :
  Forall (fun s' => standard (histogram s')) (PlotComposer.series pc) ->
  standard (histogram s) ->
  PlotComposer.add s pc =
  inr {| PlotComposer.frameTitle := PlotComposer.frameTitle pc;
         PlotComposer.xLabel := PlotComposer.xLabel pc;
         PlotComposer.yLabel := PlotComposer.yLabel pc;
         PlotComposer.series := PlotComposer.series pc ++ [s] |}.
Proof.
  intros Hall Hs. unfold PlotComposer.add.
  destruct (PlotComposer.series pc) as [|ref rest] eqn:E; [reflexivity |].
  inversion Hall as [|? ? Href _]; subst.
  unfold standard, Histogram.geometry in Hs, Href.
  injection Hs as Hs1 Hs2 Hs3. injection Href as Hr1 Hr2 Hr3.
  unfold PlotComposer.compatible.
  rewrite Hs1, Hs2, Hs3, Hr1, Hr2, Hr3. reflexivity.
Qed.

Section SweepFacts.

Variable L : Pythia8.

Lemma config_events_spec iMass :
  exists before,
    snd (config_events L iMass) =
      before ++ (if (List.length (generated L (Z.to_nat (nEvent - 0))
                                    (nth iMass masses 0%Q)
                                    (snd (Pythia_init L (configured L iMass)))
                                    (Pythia_event L (snd (Pythia_init L (configured L iMass)))))
                     <? Z.to_nat (nEvent - 0))%nat
                 then [Next false; Cout_generation_failed] else [])
    /\ fills_of before =
       flat_map (qualifying L)
         (generated L (Z.to_nat (nEvent - 0)) (nth iMass masses 0%Q)
            (snd (Pythia_init L (configured L iMass)))
            (Pythia_event L (snd (Pythia_init L (configured L iMass)))))
    /\ attempts before =
       repeat true
         (List.length (generated L (Z.to_nat (nEvent - 0)) (nth iMass masses 0%Q)
                         (snd (Pythia_init L (configured L iMass)))
                         (Pythia_event L (snd (Pythia_init L (configured L iMass))))))
    /\ config_hist L iMass =
       Histogram.fill_all
         (Histogram.book hist_title 100
            (Binary64.of_Z (-10)) (Binary64.of_Z 10))
         (unit_weight (fills_of before)).
Proof.
  unfold config_hist, config_events.
  destruct (event_loop_spec L (Z.to_nat (nEvent - 0)) (nth iMass masses 0%Q)
              (snd (Pythia_init L (configured L iMass)))
              (Pythia_event L (snd (Pythia_init L (configured L iMass))))
              (Histogram.book hist_title 100 (Binary64.of_Z (-10)) (Binary64.of_Z 10)))
    as (pythia' & event' & before & E & Hf & Ha).
  rewrite E. exists before. cbn [fst snd]. rewrite Hf. auto.
Qed.

Lemma config_hist_standard iMass : standard (config_hist L iMass).
Proof.
  destruct (config_events_spec iMass) as (before & _ & _ & _ & ->).
  unfold standard. rewrite HistogramFacts.fill_all_geometry. reflexivity.
Qed.

Lemma configuration_failed iMass hpl : init_ok L iMass = false ->
  configuration L iMass hpl = (InitFailed, config_start L iMass).
Proof.
  unfold init_ok, configuration, config_start, init_ok.
  destruct (Pythia_init L (configured L iMass)) as [ok pythia]. cbn [fst].
  intros ->. reflexivity.
Qed.

Lemma configuration_ran iMass hpl : init_ok L iMass = true ->
  configuration L iMass hpl =
  (match PlotComposer.add (config_series L iMass) hpl with
   | inl e => AddFailed e
   | inr hpl' => Added hpl'
   end, config_log L iMass).
Proof.
  unfold init_ok, configuration, config_log, config_series, config_hist,
    config_start, config_events, init_ok.
  destruct (Pythia_init L (configured L iMass)) as [ok pythia]. cbn [fst snd].
  intros ->. cbn [negb].
  destruct (event_loop L _ _ pythia _ _) as [[[pythia' event'] dndy] calls].
  cbn [fst snd].
  destruct (PlotComposer.add _ hpl); rewrite <- ?app_assoc; reflexivity.
Qed.

Lemma mass_loop_spec todo : forall iMass hpl,
  Forall (fun s => standard (histogram s)) (PlotComposer.series hpl) ->
  mass_loop L todo iMass hpl =
  (if (ran L todo iMass <? todo)%nat then Some (Returned 1) else None,
   {| PlotComposer.frameTitle := PlotComposer.frameTitle hpl;
      PlotComposer.xLabel := PlotComposer.xLabel hpl;
      PlotComposer.yLabel := PlotComposer.yLabel hpl;
      PlotComposer.series :=
        PlotComposer.series hpl
        ++ map (config_series L) (seq iMass (ran L todo iMass)) |},
   flat_map (config_log L) (seq iMass (ran L todo iMass))
   ++ (if (ran L todo iMass <? todo)%nat
       then config_start L (iMass + ran L todo iMass) else [])).
Proof.
  induction todo as [|todo IH]; intros iMass hpl Hstd.
  - cbn. rewrite app_nil_r. destruct hpl; reflexivity.
  - cbn [mass_loop ran].
    destruct (init_ok L iMass) eqn:Ei.
    + rewrite configuration_ran by assumption.
      rewrite add_standard; [| assumption | apply config_hist_standard].
      rewrite IH.
      2:{ cbn [PlotComposer.series]. apply Forall_app. split; [assumption |].
          constructor; [apply config_hist_standard | constructor]. }
      cbn [PlotComposer.frameTitle PlotComposer.xLabel PlotComposer.yLabel
           PlotComposer.series seq map flat_map].
      change (S (ran L todo (S iMass)) <? S todo)%nat
        with (ran L todo (S iMass) <? todo)%nat.
      rewrite <- !app_assoc. cbn [app].
      replace (iMass + S (ran L todo (S iMass)))%nat
        with (S iMass + ran L todo (S iMass))%nat by lia.
      reflexivity.
    + rewrite configuration_failed by assumption.
      cbn [seq map flat_map app Nat.ltb Nat.leb]. rewrite app_nil_r, Nat.add_0_r.
      destruct hpl; reflexivity.
Qed.

Lemma main_spec :
  main L =
  (Returned (if (ran L 3 0 <? 3)%nat then 1 else 0),
   {| PlotComposer.frameTitle := frame_title;
      PlotComposer.xLabel := "y";
      PlotComposer.yLabel := "n";
      PlotComposer.series := map (config_series L) (seq 0 (ran L 3 0)) |},
   main_start ++ flat_map (config_log L) (seq 0 (ran L 3 0))
   ++ (if (ran L 3 0 <? 3)%nat then config_start L (ran L 3 0)
       else [HistPlot_plot])).
Proof.
  unfold main. change (List.length masses - 0)%nat with 3%nat.
  rewrite mass_loop_spec by constructor.
  destruct (ran L 3 0 <? 3)%nat; cbn [PlotComposer.create PlotComposer.frameTitle
    PlotComposer.xLabel PlotComposer.yLabel PlotComposer.series app Nat.add];
    rewrite <- ?app_assoc, ?app_nil_r; reflexivity.
Qed.

Lemma ran_le todo iMass : (ran L todo iMass <= todo)%nat.
Proof.
  revert iMass; induction todo as [|todo IH]; intros iMass; cbn; [lia |].
  destruct (init_ok L iMass); [specialize (IH (S iMass)) |]; lia.
Qed.

Lemma ran_stops todo : forall iMass,
  (ran L todo iMass < todo)%nat -> init_ok L (iMass + ran L todo iMass) = false.
Proof.
  induction todo as [|todo IH]; intros iMass Hr; cbn in Hr |- *; [lia |].
  destruct (init_ok L iMass) eqn:Ei.
  - replace (iMass + S (ran L todo (S iMass)))%nat
      with (S iMass + ran L todo (S iMass))%nat by lia.
    apply IH. lia.
  - rewrite Nat.add_0_r. assumption.
Qed.

Lemma ran_first_failure todo : forall iMass i,
  (i < todo)%nat ->
  (forall j, (j < i)%nat -> init_ok L (iMass + j) = true) ->
  init_ok L (iMass + i) = false ->
  ran L todo iMass = i.
Proof.
  induction todo as [|todo IH]; intros iMass i Hi Hok Hfail; [lia |].
  cbn [ran]. destruct i as [|i].
  - rewrite Nat.add_0_r in Hfail. rewrite Hfail. reflexivity.
  - assert (E0 : init_ok L iMass = true)
      by (rewrite <- (Nat.add_0_r iMass); apply Hok; lia).
    rewrite E0. f_equal. apply IH; [lia | |].
    + intros j Hj. replace (S iMass + j)%nat with (iMass + S j)%nat by lia.
      apply Hok. lia.
    + replace (S iMass + i)%nat with (iMass + S i)%nat by lia. assumption.
Qed.

End SweepFacts.

(** *** Kinds of calls *)

Lemma trial_call_fills xs : forallb trial_call (map Hist_fill xs) = true.
Proof. induction xs; cbn; auto. Qed.

Lemma event_loop_calls L todo : forall smass pythia event dndy,
  forallb trial_call (snd (event_loop L todo smass pythia event dndy)) = true.
Proof.
  induction todo as [|todo IH]; intros smass pythia event dndy; [reflexivity |].
  cbn [event_loop]. rewrite trial_spec.
  destruct (Pythia_next L pythia _) as [[|] [pythia1 event1]].
  - specialize (IH smass pythia1 event1
                  (Histogram.fill_all dndy (unit_weight (qualifying L event1)))).
    destruct (event_loop L todo smass pythia1 event1 _) as [st calls].
    cbn [snd] in *. rewrite !forallb_app, IH. cbn [trial_setup forallb trial_call andb].
    rewrite trial_call_fills. reflexivity.
  - reflexivity.
Qed.

Lemma trial_calls_project calls : forallb trial_call calls = true ->
  adds_of calls = [] /\ announced calls = []
  /\ forallb (fun c => negb (is_frame c)) calls = true
  /\ forallb (fun c => negb (is_plot c)) calls = true
  /\ forallb (fun c => negb (is_add c)) calls = true.
Proof.
  induction calls as [|c calls IH]; [repeat split |].
  cbn [forallb]. intros H. apply andb_true_iff in H as [Hc H].
  destruct (IH H) as (A1 & A2 & A3 & A4 & A5).
  unfold adds_of, announced in *. cbn [flat_map forallb].
  rewrite A1, A2, A3, A4, A5.
  destruct c; try discriminate Hc; repeat split.
Qed.

Lemma count_app P l1 l2 : count P (l1 ++ l2) = (count P l1 + count P l2)%nat.
Proof. unfold count. rewrite filter_app, length_app. reflexivity. Qed.

Lemma count_none P l : forallb (fun c => negb (P c)) l = true -> count P l = 0%nat.
Proof.
  unfold count. induction l as [|c l IH]; [reflexivity |].
  cbn [forallb filter]. intros H. apply andb_true_iff in H as [Hc H].
  apply negb_true_iff in Hc. rewrite Hc. auto.
Qed.

Lemma never_after_none P Q l :
  forallb (fun c => negb (P c)) l = true -> never_after P Q l = true.
Proof.
  induction l as [|c l IH]; [reflexivity |].
  cbn [forallb never_after]. intros H. apply andb_true_iff in H as [Hc H].
  rewrite (IH H), H. destruct (Q c); reflexivity.
Qed.

Lemma never_after_clean_prefix P Q l1 l2 :
  forallb (fun c => negb (Q c)) l1 = true ->
  never_after P Q (l1 ++ l2) = never_after P Q l2.
Proof.
  induction l1 as [|c l1 IH]; [reflexivity |].
  cbn [forallb never_after app]. intros H. apply andb_true_iff in H as [Hc H].
  apply negb_true_iff in Hc. rewrite Hc, (IH H). reflexivity.
Qed.

Section LogFacts.

Variable L : Pythia8.

Lemma config_start_project iMass :
  adds_of (config_start L iMass) = []
  /\ announced (config_start L iMass) = [nth iMass masses 0%Q]
  /\ forallb (fun c => negb (is_frame c)) (config_start L iMass) = true
  /\ forallb (fun c => negb (is_plot c)) (config_start L iMass) = true
  /\ forallb (fun c => negb (is_add c)) (config_start L iMass) = true.
Proof. repeat split. Qed.

Lemma config_log_project iMass :
  adds_of (config_log L iMass) = [config_series L iMass]
  /\ announced (config_log L iMass) = [nth iMass masses 0%Q]
  /\ forallb (fun c => negb (is_frame c)) (config_log L iMass) = true
  /\ forallb (fun c => negb (is_plot c)) (config_log L iMass) = true.
Proof.
  unfold config_log.
  destruct (config_start_project iMass) as (S1 & S2 & S3 & S4 & _).
  destruct (trial_calls_project (snd (config_events L iMass)))
    as (E1 & E2 & E3 & E4 & _).
  { apply event_loop_calls. }
  repeat split.
  - change (Hist_ctor hist_title 100 (Binary64.of_Z (-10)) (Binary64.of_Z 10) :: ?l)
      with ([Hist_ctor hist_title 100 (Binary64.of_Z (-10)) (Binary64.of_Z 10)] ++ l).
    rewrite !adds_of_app, S1, E1. reflexivity.
  - change (Hist_ctor hist_title 100 (Binary64.of_Z (-10)) (Binary64.of_Z 10) :: ?l)
      with ([Hist_ctor hist_title 100 (Binary64.of_Z (-10)) (Binary64.of_Z 10)] ++ l).
    rewrite !announced_app, S2, E2. reflexivity.
  - rewrite forallb_app, S3. cbn [forallb is_frame negb andb].
    rewrite forallb_app, E3. reflexivity.
  - rewrite forallb_app, S4. cbn [forallb is_plot negb andb].
    rewrite forallb_app, E4. reflexivity.
Qed.

Lemma sweep_project (l : list nat) :
  adds_of (flat_map (config_log L) l) = map (config_series L) l
  /\ announced (flat_map (config_log L) l) = map (fun i => nth i masses 0%Q) l
  /\ forallb (fun c => negb (is_frame c)) (flat_map (config_log L) l) = true
  /\ forallb (fun c => negb (is_plot c)) (flat_map (config_log L) l) = true.
Proof.
  induction l as [|i l (A1 & A2 & A3 & A4)]; [repeat split |].
  destruct (config_log_project i) as (C1 & C2 & C3 & C4).
  cbn [flat_map map].
  rewrite adds_of_app, announced_app, !forallb_app, A1, A2, A3, A4, C1, C2, C3, C4.
  repeat split.
Qed.

Lemma generated_length todo : forall smass pythia event,
  (List.length (generated L todo smass pythia event) <= todo)%nat.
Proof.
  induction todo as [|todo IH]; intros smass pythia event; cbn [generated];
    [cbn; lia |].
  destruct (Pythia_next L pythia _) as [[|] [pythia1 event1]]; cbn [List.length].
  - specialize (IH smass pythia1 event1). lia.
  - lia.
Qed.

(** The attempts of a configuration: successes, then at most one failure. *)
Lemma config_attempts iMass :
  exists before k,
    snd (config_events L iMass) =
      before ++ (if (k <? Z.to_nat (nEvent - 0))%nat
                 then [Next false; Cout_generation_failed] else [])
    /\ (k <= Z.to_nat (nEvent - 0))%nat
    /\ attempts before = repeat true k
    /\ attempts (config_log L iMass) =
       repeat true k ++ (if (k <? Z.to_nat (nEvent - 0))%nat then [false] else [])
    /\ config_hist L iMass =
       Histogram.fill_all
         (Histogram.book hist_title 100
            (Binary64.of_Z (-10)) (Binary64.of_Z 10))
         (unit_weight (fills_of before)).
Proof.
  destruct (config_events_spec L iMass) as (before & E & _ & Ha & Hh).
  exists before, (List.length (generated L (Z.to_nat (nEvent - 0))
                                 (nth iMass masses 0%Q)
                                 (snd (Pythia_init L (configured L iMass)))
                                 (Pythia_event L (snd (Pythia_init L (configured L iMass)))))).
  repeat split; auto using generated_length.
  unfold config_log. rewrite E.
  change (Hist_ctor hist_title 100 (Binary64.of_Z (-10)) (Binary64.of_Z 10) :: ?l)
    with ([Hist_ctor hist_title 100 (Binary64.of_Z (-10)) (Binary64.of_Z 10)] ++ l).
  rewrite !attempts_app, Ha.
  change (attempts (config_start L iMass)) with (@nil bool).
  destruct (_ <? _)%nat; cbn [attempts flat_map app]; rewrite ?app_nil_r;
    reflexivity.
Qed.

End LogFacts.

Lemma nth_error_repeat_true (k j : nat) (b : bool) :
  nth_error (repeat true k ++ (if b then [false] else [])) j = Some false ->
  j = k /\ b = true.
Proof.
  revert j; induction k as [|k IH]; intros j H.
  - destruct b, j as [|j]; cbn in H; try discriminate; auto.
    destruct j; discriminate.
  - destruct j as [|j]; cbn in H; [discriminate |].
    destruct (IH j H) as [-> ->]. auto.
Qed.

Lemma nEvent_trials : Z.of_nat (Z.to_nat (nEvent - 0)) = 1000000.
Proof. unfold nEvent. rewrite Z2Nat.id by lia. reflexivity. Qed.

(** ** Properties of the run *)

Lemma primaryb_iff s : primaryb s = true <-> primary s.
Proof. unfold primaryb, primary. rewrite andb_true_iff, !Z.ltb_lt. tauto. Qed.

Lemma qualifying_app L ev1 ev2 :
  qualifying L (ev1 ++ ev2) = qualifying L ev1 ++ qualifying L ev2.
Proof. apply flat_map_app. Qed.

(** C2.  In a trial whose generation succeeds, the fills are exactly the
    rapidities of the entities of that trial's event record whose status
    lies strictly between 80 and 90, that is in 81..89, in the order of
    the record: the entity at any position contributes one fill with its
    rapidity if its status is in the range, and none otherwise.  The
    histogram after the trial is the one before it with those fills. *)
Theorem fill_iff_primary :
  forall L smass pythia event dndy pythia' event' dndy' calls,
    trial L smass pythia event dndy = (Continue, (pythia', event', dndy'), calls) ->
    (forall before p after, event' = before ++ p :: after ->
       fills_of calls =
       qualifying L before
       ++ (if primaryb (Particle.status p) then [Particle_y L p] else [])
       ++ qualifying L after)
    /\ (forall p, primaryb (Particle.status p) = true
                  <-> 80 < Particle.status p < 90)
    /\ (forall p, 80 < Particle.status p < 90 <-> 81 <= Particle.status p <= 89)
    /\ dndy' = Histogram.fill_all dndy (unit_weight (fills_of calls)).
Proof.
  intros L smass pythia event dndy pythia' event' dndy' calls H.
  rewrite trial_spec in H.
  destruct (Pythia_next L pythia _) as [[|] [pythia1 event1]]; [| discriminate].
  injection H as H1 H2 H3 H4.
  assert (E : fills_of calls = qualifying L event').
  { subst calls event'. apply (fills_of_fills (qualifying L event1)). }
  rewrite E. subst event' dndy'. split; [| split; [| split]].
  - intros before p after ->.
    rewrite qualifying_app. cbn [qualifying flat_map]. reflexivity.
  - intros p. apply primaryb_iff.
  - intros p. lia.
  - reflexivity.
Qed.

(** C8.  A configuration whose generator initialises makes at most
    1,000,000 trials, the same bound whatever the configuration; it makes
    exactly 1,000,000 unless one of them fails, and a failed trial is the
    last one attempted. *)
Theorem trial_count :
  forall L iMass hpl,
    init_ok L iMass = true ->
    let tried := attempts (snd (configuration L iMass hpl)) in
    Z.of_nat (List.length tried) <= 1000000
    /\ (In false tried \/ Z.of_nat (List.length tried) = 1000000)
    /\ (forall k, nth_error tried k = Some false -> List.length tried = S k).
Proof.
  intros L iMass hpl Hi tried. subst tried.
  rewrite configuration_ran by assumption. cbn [snd].
  destruct (config_attempts L iMass) as (before & k & _ & Hk & _ & -> & _).
  pose proof nEvent_trials as HN.
  set (N := Z.to_nat (nEvent - 0)) in *. clearbody N.
  rewrite length_app, repeat_length.
  destruct (k <? N)%nat eqn:E.
  - apply Nat.ltb_lt in E. cbn [List.length]. repeat split.
    + lia.
    + left. apply in_or_app. right. left. reflexivity.
    + intros j Hj. apply (nth_error_repeat_true k j true) in Hj. lia.
  - apply Nat.ltb_ge in E. cbn [List.length]. repeat split.
    + lia.
    + right. lia.
    + intros j Hj. apply (nth_error_repeat_true k j false) in Hj.
      destruct Hj; discriminate.
Qed.

Lemma Forall_firstn_keeps {A} (P : A -> Prop) n : forall l,
  Forall P l -> Forall P (firstn n l).
Proof.
  induction n as [|n IH]; intros l H; [constructor |].
  destruct H; cbn [firstn]; constructor; auto.
Qed.

Lemma standard_fields h : standard h ->
  Histogram.binCount h = 100 /\ Histogram.lowEdge h = Binary64.of_Z (-10)
  /\ Histogram.highEdge h = Binary64.of_Z 10.
Proof.
  unfold standard, Histogram.geometry. intros H. injection H as H1 H2 H3. auto.
Qed.

Lemma main_adds L :
  adds_of (snd (main L)) = PlotComposer.series (snd (fst (main L))).
Proof.
  rewrite main_spec. cbn [fst snd PlotComposer.series].
  destruct (sweep_project L (seq 0 (ran L 3 0))) as (A & _).
  rewrite !adds_of_app, A.
  destruct (ran L 3 0 <? 3)%nat; cbn [main_start adds_of flat_map app];
    rewrite ?app_nil_r; reflexivity.
Qed.

(** C4.  Every series added to the plot over the whole run has the same
    geometry, 100 bins over [-10, 10]; the series the composer holds at
    the end are the ones added, in order; each add finds the composer
    compatible with the series it is given; and [main] never ends on a
    [GeometryMismatch] (or on any other error raised by a collaborator). *)
Theorem geometry_never_mismatches :
  forall L,
    let added := PlotComposer.series (snd (fst (main L))) in
    (forall e, fst (fst (main L)) <> Raised e)
    /\ adds_of (snd (main L)) = added
    /\ Forall (fun s => Histogram.geometry (histogram s)
                         = (100, Binary64.of_Z (-10), Binary64.of_Z 10))
         added
    /\ forall n s, nth_error added n = Some s ->
         PlotComposer.add s
           {| PlotComposer.frameTitle := frame_title;
              PlotComposer.xLabel := "y"; PlotComposer.yLabel := "n";
              PlotComposer.series := firstn n added |}
         = inr {| PlotComposer.frameTitle := frame_title;
                  PlotComposer.xLabel := "y"; PlotComposer.yLabel := "n";
                  PlotComposer.series := firstn n added ++ [s] |}.
Proof.
  intros L added. subst added.
  assert (Hstd : Forall (fun s => standard (histogram s))
                   (PlotComposer.series (snd (fst (main L))))).
  { rewrite main_spec. cbn [fst snd PlotComposer.series].
    apply Forall_forall. intros s Hs. apply in_map_iff in Hs as (i & <- & _).
    apply config_hist_standard. }
  split; [| split; [| split]].
  - rewrite main_spec. discriminate.
  - apply main_adds.
  - exact Hstd.
  - intros n s Hn. apply add_standard.
    + cbn [PlotComposer.series]. apply Forall_firstn_keeps, Hstd.
    + apply (proj1 (Forall_forall _ _) Hstd). eapply nth_error_In; eassumption.
Qed.

(** C5.  A run that returns 0 has added exactly three series, in this
    order: for the string masses 5, 20 and 100, labelled ["5.00 GeV
    string"], ["20.00 GeV string"] and ["100.00 GeV string"], styled
    dashed in steelblue, seagreen and indianred, each with a histogram of
    100 bins over [-10, 10]. *)
Theorem three_series :
  forall L,
    fst (fst (main L)) = Returned 0 ->
    exists h5 h20 h100,
      PlotComposer.series (snd (fst (main L))) =
        [mkSeries h5 "--,steelblue" "5.00 GeV string";
         mkSeries h20 "--,seagreen" "20.00 GeV string";
         mkSeries h100 "--,indianred" "100.00 GeV string"]
      /\ adds_of (snd (main L)) = PlotComposer.series (snd (fst (main L)))
      /\ announced (snd (main L)) = [5; 20; 100]%Q
      /\ Forall (fun h => Histogram.binCount h = 100
                          /\ Histogram.lowEdge h = Binary64.of_Z (-10)
                          /\ Histogram.highEdge h = Binary64.of_Z 10)
           [h5; h20; h100].
Proof.
  intros L H.
  rewrite main_adds. revert H.
  rewrite main_spec. cbn [fst snd PlotComposer.series].
  pose proof (ran_le L 3 0) as Hle.
  destruct (ran L 3 0 <? 3)%nat eqn:E; [discriminate |].
  apply Nat.ltb_ge in E. assert (Hr : ran L 3 0 = 3%nat) by lia.
  rewrite Hr. intros _.
  exists (config_hist L 0), (config_hist L 1), (config_hist L 2).
  split; [| split; [| split]].
  - unfold config_series. cbn [seq map nth masses].
    change (style_of 0) with "--,steelblue"%string.
    change (style_of 1) with "--,seagreen"%string.
    change (style_of 2) with "--,indianred"%string.
    replace (label_of 5) with "5.00 GeV string"%string by (vm_compute; reflexivity).
    replace (label_of 20) with "20.00 GeV string"%string by (vm_compute; reflexivity).
    replace (label_of 100) with "100.00 GeV string"%string by (vm_compute; reflexivity).
    reflexivity.
  - reflexivity.
  - destruct (sweep_project L (seq 0 3)) as (_ & A & _).
    rewrite !announced_app, A. reflexivity.
  - repeat (constructor; [apply standard_fields, config_hist_standard |]).
    constructor.
Qed.

(** C6.  If the generator of configuration [i] fails to initialise, the
    earlier ones having initialised, [main] returns 1 at once: the failed
    [init] is its last call, the series added are those of the [i]
    earlier configurations and none for configuration [i], and the plot
    is never rendered. *)
Theorem init_failure_exits :
  forall L i,
    (i < 3)%nat ->
    (forall j, (j < i)%nat -> init_ok L j = true) ->
    init_ok L i = false ->
    fst (fst (main L)) = Returned 1
    /\ PlotComposer.series (snd (fst (main L))) = map (config_series L) (seq 0 i)
    /\ adds_of (snd (main L)) = map (config_series L) (seq 0 i)
    /\ count is_plot (snd (main L)) = 0%nat
    /\ exists before, snd (main L) = before ++ [Init false].
Proof.
  intros L i Hi Hok Hfail.
  assert (Hr : ran L 3 0 = i) by (apply ran_first_failure; assumption).
  rewrite main_adds.
  rewrite main_spec, Hr. cbn [fst snd PlotComposer.series].
  apply Nat.ltb_lt in Hi as Hb. rewrite Hb.
  destruct (sweep_project L (seq 0 i)) as (_ & _ & _ & Hplot).
  repeat split.
  - rewrite !count_app, (count_none is_plot _ Hplot). reflexivity.
  - exists (main_start ++ flat_map (config_log L) (seq 0 i)
            ++ Pythia_ctor :: map ReadString settings
            ++ [Cout_initialising (nth i masses 0%Q)]).
    unfold config_start. rewrite Hfail.
    rewrite <- !app_assoc. cbn [app map]. rewrite <- !app_assoc. reflexivity.
Qed.

(** C7, as amended.  In every execution the frame is set exactly once and
    before any series is added, and no series is added after the plot is
    rendered.  A run that returns 0 renders the plot exactly once, as its
    last call; a run that ends otherwise never renders it. *)
Theorem plot_lifecycle :
  forall L,
    let calls := snd (main L) in
    count is_frame calls = 1%nat
    /\ never_after is_frame is_add calls = true
    /\ never_after is_add is_plot calls = true
    /\ match fst (fst (main L)) with
       | Returned 0 =>
           exists body, calls = body ++ [HistPlot_plot]
                        /\ count is_plot body = 0%nat
       | _ => count is_plot calls = 0%nat
       end.
Proof.
  intros L calls. subst calls. rewrite main_spec. cbn [fst snd].
  destruct (sweep_project L (seq 0 (ran L 3 0))) as (_ & _ & Hframe & Hplot).
  set (sweep := flat_map (config_log L) (seq 0 (ran L 3 0))) in *.
  assert (Htail_frame :
    forallb (fun c => negb (is_frame c))
      (if (ran L 3 0 <? 3)%nat then config_start L (ran L 3 0) else [HistPlot_plot])
    = true) by (destruct (ran L 3 0 <? 3)%nat; reflexivity).
  assert (Htail_add :
    forallb (fun c => negb (is_add c))
      (if (ran L 3 0 <? 3)%nat then config_start L (ran L 3 0) else [HistPlot_plot])
    = true) by (destruct (ran L 3 0 <? 3)%nat; reflexivity).
  split; [| split; [| split]].
  - rewrite !count_app, (count_none is_frame sweep Hframe),
      (count_none is_frame _ Htail_frame). reflexivity.
  - rewrite never_after_clean_prefix by reflexivity.
    apply never_after_none. rewrite forallb_app, Hframe. exact Htail_frame.
  - rewrite app_assoc.
    rewrite never_after_clean_prefix
      by (rewrite forallb_app, Hplot; reflexivity).
    apply never_after_none. exact Htail_add.
  - destruct (ran L 3 0 <? 3)%nat.
    + rewrite !count_app, (count_none is_plot sweep Hplot). reflexivity.
    + exists (main_start ++ sweep). split.
      * rewrite <- app_assoc. reflexivity.
      * rewrite count_app, (count_none is_plot sweep Hplot). reflexivity.
Qed.

(** When no generator initialises, [main] returns 1 without rendering. *)
Lemma lifecycle_fails_without_init :
  ~ lifecycle_as_stated (Script.lib Script.no_init).
Proof.
  unfold lifecycle_as_stated. intros (_ & _ & _ & H).
  vm_compute in H. discriminate H.
Qed.

Lemma seq_split_at i r : (i < r)%nat ->
  seq 0 r = seq 0 i ++ i :: seq (S i) (r - S i).
Proof.
  intros H. replace r with (i + S (r - S i))%nat at 1 by lia.
  rewrite seq_app. reflexivity.
Qed.

Lemma ran_beyond L i :
  (i < 3)%nat -> (forall j, (j <= i)%nat -> init_ok L j = true) ->
  (i < ran L 3 0)%nat.
Proof.
  intros Hi Hok.
  destruct (Nat.lt_ge_cases i (ran L 3 0)) as [|Hge]; [assumption |].
  assert (Hlt : (ran L 3 0 < 3)%nat) by lia.
  pose proof (ran_stops L 3 0 Hlt) as Hs. cbn [Nat.add] in Hs.
  rewrite Hok in Hs by lia. discriminate.
Qed.

(** C3.  If trial [k] of configuration [iMass] fails, the generators up
    to that configuration having initialised: the failed trial is the
    last call of the event loop but for the error message, so no further
    trial and no further fill follow; the histogram holds the fills made
    before, and no others; its statistics are printed and it is added to
    the plot as the series of that configuration; and the sweep goes on,
    to the next configuration or, after the last one, to the plot. *)
Theorem generation_failure_is_local :
  forall L iMass k,
    (iMass < 3)%nat ->
    (forall j, (j <= iMass)%nat -> init_ok L j = true) ->
    nth_error (attempts (config_log L iMass)) k = Some false ->
    exists before h rest,
      config_log L iMass =
        before ++ [Next false; Cout_generation_failed; Pythia_stat; Cout_hist h;
                   HistPlot_add h (style_of iMass) (label_of (nth iMass masses 0%Q))]
      /\ attempts before = repeat true k
      /\ h = Histogram.fill_all
               (Histogram.book hist_title 100
                  (Binary64.of_Z (-10)) (Binary64.of_Z 10))
               (unit_weight (fills_of before))
      /\ nth_error (PlotComposer.series (snd (fst (main L)))) iMass =
         Some (mkSeries h (style_of iMass) (label_of (nth iMass masses 0%Q)))
      /\ snd (main L) =
         main_start ++ flat_map (config_log L) (seq 0 iMass)
         ++ config_log L iMass ++ rest
      /\ hd_error rest =
         Some (if (S iMass <? 3)%nat then Pythia_ctor else HistPlot_plot).
Proof.
  intros L iMass k Hi Hok Hk.
  pose proof (ran_beyond L iMass Hi Hok) as Hr.
  pose proof (ran_le L 3 0) as Hle.
  destruct (config_attempts L iMass) as (before0 & g & E & _ & Hab & Hatt & Hh).
  rewrite Hatt in Hk. apply nth_error_repeat_true in Hk as [-> Hb].
  rewrite Hb in E.
  exists (config_start L iMass ++ Hist_ctor hist_title 100 (Binary64.of_Z (-10)) (Binary64.of_Z 10) :: before0),
    (config_hist L iMass),
    (flat_map (config_log L) (seq (S iMass) (ran L 3 0 - S iMass))
     ++ (if (ran L 3 0 <? 3)%nat then config_start L (ran L 3 0)
         else [HistPlot_plot])).
  split; [| split; [| split; [| split; [| split]]]].
  - unfold config_log. rewrite E, <- ?app_assoc. cbn [app].
    rewrite <- ?app_assoc. reflexivity.
  - rewrite attempts_app. cbn [attempts flat_map app config_start map settings].
    exact Hab.
  - rewrite Hh, fills_of_app. reflexivity.
  - rewrite main_spec. cbn [fst snd PlotComposer.series].
    rewrite (seq_split_at iMass (ran L 3 0) Hr), map_app.
    rewrite nth_error_app2 by (rewrite length_map, length_seq; lia).
    rewrite length_map, length_seq, Nat.sub_diag. reflexivity.
  - rewrite main_spec. cbn [fst snd].
    rewrite (seq_split_at iMass (ran L 3 0) Hr) at 1.
    rewrite flat_map_app. cbn [flat_map]. rewrite <- !app_assoc. reflexivity.
  - destruct (ran L 3 0 - S iMass)%nat as [|d] eqn:Ed.
    + assert (Er : ran L 3 0 = S iMass) by lia. rewrite Er.
      cbn [seq flat_map app]. destruct (S iMass <? 3)%nat; reflexivity.
    + assert (Hlt : (S iMass <? 3)%nat = true) by (apply Nat.ltb_lt; lia).
      rewrite Hlt. reflexivity.
Qed.

Lemma particle_loop_instances L new ps : forall dndy,
  particle_loop (with_instances L new) ps dndy = particle_loop L ps dndy.
Proof.
  induction ps as [|p ps IH]; intros dndy; [reflexivity |].
  cbn [particle_loop]. rewrite !IH. reflexivity.
Qed.

Lemma trial_instances L new smass pythia event dndy :
  trial (with_instances L new) smass pythia event dndy
  = trial L smass pythia event dndy.
Proof.
  unfold trial. cbn [with_instances Pythia_next Event_after_reset].
  change (quark (with_instances L new) smass pythia) with (quark L smass pythia).
  change (antiquark (with_instances L new) smass pythia)
    with (antiquark L smass pythia).
  destruct (Pythia_next L pythia _) as [ok [pythia' event']].
  rewrite particle_loop_instances. reflexivity.
Qed.

Lemma event_loop_instances L new todo : forall smass pythia event dndy,
  event_loop (with_instances L new) todo smass pythia event dndy
  = event_loop L todo smass pythia event dndy.
Proof.
  induction todo as [|todo IH]; intros smass pythia event dndy; [reflexivity |].
  cbn [event_loop]. rewrite trial_instances.
  destruct (trial L smass pythia event dndy) as [[[|] [[pythia' event'] dndy']] calls];
    [| reflexivity].
  rewrite IH. reflexivity.
Qed.

Lemma config_log_instances L new iMass :
  new iMass = Pythia_new L iMass ->
  config_log (with_instances L new) iMass = config_log L iMass
  /\ config_series (with_instances L new) iMass = config_series L iMass.
Proof.
  intros H.
  assert (Ec : configured (with_instances L new) iMass = configured L iMass).
  { unfold configured. cbn [with_instances Pythia_new Pythia_readString].
    rewrite H. reflexivity. }
  assert (Ee : config_events (with_instances L new) iMass = config_events L iMass).
  { unfold config_events. rewrite Ec. apply event_loop_instances. }
  unfold config_log, config_series, config_hist, config_start, init_ok.
  rewrite Ee, Ec. split; reflexivity.
Qed.

(** C9, as amended.  Each trial resets the record and appends exactly two
    entities, the quark of id [qid] and the antiquark of id [- qid], both
    of status 23, so that generation starts from what the reset leaves
    followed by those two; its fills come from the record its own
    generation produced.  When what the reset leaves does not depend on
    what the record held, a trial does not depend on it either.  Over an
    event loop the fills are those of the successive records, each
    counted once.  The histogram of a configuration starts empty and holds
    the fills of that configuration only, and what a configuration logs
    and adds depends on no generator instance but its own. *)
Theorem trials_and_configurations_isolated :
  forall L,
    (forall smass pythia event dndy,
        let q := quark L smass pythia in
        let qbar := antiquark L smass pythia in
        seeded L smass pythia event = Event_after_reset L event ++ [q; qbar]
        /\ (Particle.id q = qid /\ Particle.status q = 23)
        /\ (Particle.id qbar = - qid /\ Particle.status qbar = 23)
        /\ exists ok pythia' event' calls,
             Pythia_next L pythia (Event_after_reset L event ++ [q; qbar])
             = (ok, (pythia', event'))
             /\ trial L smass pythia event dndy =
                (if ok then Continue else Break,
                 (pythia', event',
                  Histogram.fill_all dndy (unit_weight (fills_of calls))),
                 calls)
             /\ fills_of calls = (if ok then qualifying L event' else []))
    /\ ((forall event event', Event_after_reset L event = Event_after_reset L event') ->
        forall smass pythia event event' dndy,
          trial L smass pythia event dndy = trial L smass pythia event' dndy)
    /\ (forall todo smass pythia event dndy,
          fills_of (snd (event_loop L todo smass pythia event dndy)) =
            flat_map (qualifying L) (generated L todo smass pythia event)
          /\ snd (fst (event_loop L todo smass pythia event dndy)) =
             Histogram.fill_all dndy
               (unit_weight
                  (flat_map (qualifying L) (generated L todo smass pythia event))))
    /\ (forall iMass,
          config_hist L iMass =
          Histogram.fill_all
            (Histogram.book hist_title 100 (Binary64.of_Z (-10)) (Binary64.of_Z 10))
            (unit_weight (fills_of (config_log L iMass))))
    /\ (forall new iMass,
          new iMass = Pythia_new L iMass ->
          config_log (with_instances L new) iMass = config_log L iMass
          /\ config_series (with_instances L new) iMass = config_series L iMass)
    /\ PlotComposer.series (snd (fst (main L))) =
       map (config_series L) (seq 0 (ran L 3 0)).
Proof.
  intros L. split; [| split; [| split; [| split; [| split]]]].
  - intros smass pythia event dndy q qbar.
    assert (Es : seeded L smass pythia event = Event_after_reset L event ++ [q; qbar]).
    { unfold seeded, Event.append. rewrite <- app_assoc. reflexivity. }
    split; [exact Es |]. split; [split; reflexivity |].
    split; [split; reflexivity |].
    rewrite trial_spec, <- Es.
    destruct (Pythia_next L pythia _) as [[|] [pythia' event']].
    + exists true, pythia', event',
        (trial_setup L smass pythia
         ++ Next true :: map Hist_fill (qualifying L event')).
      assert (E : fills_of (trial_setup L smass pythia
                            ++ Next true :: map Hist_fill (qualifying L event'))
                  = qualifying L event')
        by apply (fills_of_fills (qualifying L event')).
      rewrite E. repeat split.
    + exists false, pythia', event',
        (trial_setup L smass pythia ++ [Next false; Cout_generation_failed]).
      repeat split.
  - intros Hreset smass pythia event event' dndy.
    rewrite !trial_spec. unfold seeded.
    rewrite (Hreset event event'). reflexivity.
  - intros todo smass pythia event dndy.
    destruct (event_loop_spec L todo smass pythia event dndy)
      as (pythia' & event' & before & E & Hf & _).
    rewrite E. cbn [fst snd]. split; [| reflexivity].
    rewrite fills_of_app, Hf.
    destruct (_ <? _)%nat; cbn [fills_of flat_map app]; apply app_nil_r.
  - intros iMass.
    destruct (config_attempts L iMass) as (before & k & E & _ & _ & _ & Hh).
    rewrite Hh. f_equal. f_equal.
    unfold config_log. rewrite E.
    change (Hist_ctor hist_title 100 (Binary64.of_Z (-10)) (Binary64.of_Z 10) :: ?l)
      with ([Hist_ctor hist_title 100 (Binary64.of_Z (-10)) (Binary64.of_Z 10)] ++ l).
    rewrite !fills_of_app.
    change (fills_of (config_start L iMass)) with (@nil double).
    destruct (_ <? _)%nat; cbn [fills_of flat_map app]; rewrite ?app_nil_r;
      reflexivity.
  - intros new iMass. apply config_log_instances.
  - rewrite main_spec. reflexivity.
Qed.

(** The reset of the library keeps the system line: generation starts from
    three entries, not from the two appended ones alone. *)
Lemma trial_record_keeps_system_line :
  ~ trial_record_as_stated (Script.lib Script.one_trial).
Proof.
  intros H. specialize (H 5%Q (0%nat, 0%nat) nil).
  apply (f_equal (@List.length Particle.t)) in H. vm_compute in H. discriminate H.
Qed.

(** ** Runs on scripted generators *)

Lemma fill_iff_primary_witness :
  exists pythia' event' dndy' calls,
    trial (Script.lib Script.one_trial) 5 (0%nat, 0%nat) []
      (Histogram.book hist_title 100 (Binary64.of_Z (-10)) (Binary64.of_Z 10))
    = (Continue, (pythia', event', dndy'), calls)
    /\ fills_of calls = map Binary64.of_Q [1 # 2; - (3 # 2); -12]%Q
    /\ dndy' = Histogram.fill_all
                 (Histogram.book hist_title 100
                    (Binary64.of_Z (-10)) (Binary64.of_Z 10))
                 (unit_weight (fills_of calls)).
Proof.
  do 4 eexists. split; [vm_compute; reflexivity |].
  split; [vm_compute; reflexivity |].
  eapply (fill_iff_primary (Script.lib Script.one_trial) 5 (0%nat, 0%nat) []).
  vm_compute. reflexivity.
Defined.

Lemma trial_count_witness :
  init_ok (Script.lib Script.one_trial) 0 = true
  /\ nth_error
       (attempts (snd (configuration (Script.lib Script.one_trial) 0
                         (PlotComposer.create frame_title "y" "n"))))
       1 = Some false
  /\ List.length
       (attempts (snd (configuration (Script.lib Script.one_trial) 0
                         (PlotComposer.create frame_title "y" "n"))))
     = 2%nat.
Proof.
  split; [reflexivity |]. split; [vm_compute; reflexivity |].
  destruct (trial_count (Script.lib Script.one_trial) 0
              (PlotComposer.create frame_title "y" "n") eq_refl)
    as (_ & _ & H).
  apply (H 1%nat). vm_compute. reflexivity.
Defined.

Lemma geometry_never_mismatches_witness :
  nth_error (PlotComposer.series (snd (fst (main (Script.lib Script.one_trial)))))
    1 = Some (config_series (Script.lib Script.one_trial) 1)
  /\ PlotComposer.add (config_series (Script.lib Script.one_trial) 1)
       {| PlotComposer.frameTitle := frame_title;
          PlotComposer.xLabel := "y"; PlotComposer.yLabel := "n";
          PlotComposer.series :=
            firstn 1 (PlotComposer.series
                        (snd (fst (main (Script.lib Script.one_trial))))) |}
     <> inl GeometryMismatch.
Proof.
  assert (H : nth_error
                (PlotComposer.series
                   (snd (fst (main (Script.lib Script.one_trial))))) 1
              = Some (config_series (Script.lib Script.one_trial) 1))
    by (vm_compute; reflexivity).
  split; [exact H |].
  destruct (geometry_never_mismatches (Script.lib Script.one_trial))
    as (_ & _ & _ & Hadd).
  rewrite (Hadd 1%nat _ H). discriminate.
Defined.

Lemma three_series_witness :
  fst (fst (main (Script.lib Script.one_trial))) = Returned 0
  /\ map label (PlotComposer.series (snd (fst (main (Script.lib Script.one_trial)))))
     = ["5.00 GeV string"; "20.00 GeV string"; "100.00 GeV string"]%string.
Proof.
  split; [vm_compute; reflexivity |].
  destruct (three_series (Script.lib Script.one_trial))
    as (h5 & h20 & h100 & -> & _).
  - vm_compute. reflexivity.
  - reflexivity.
Defined.

Lemma init_failure_exits_witness :
  (1 < 3)%nat
  /\ (forall j, (j < 1)%nat -> init_ok (Script.lib Script.second_init_fails) j = true)
  /\ init_ok (Script.lib Script.second_init_fails) 1 = false
  /\ fst (fst (main (Script.lib Script.second_init_fails))) = Returned 1
  /\ count is_plot (snd (main (Script.lib Script.second_init_fails))) = 0%nat.
Proof.
  assert (H1 : (1 < 3)%nat) by lia.
  assert (H2 : forall j, (j < 1)%nat ->
                 init_ok (Script.lib Script.second_init_fails) j = true).
  { intros j Hj. assert (j = 0%nat) as -> by lia. reflexivity. }
  assert (H3 : init_ok (Script.lib Script.second_init_fails) 1 = false)
    by reflexivity.
  destruct (init_failure_exits (Script.lib Script.second_init_fails) 1 H1 H2 H3)
    as (A & _ & _ & B & _).
  repeat split; assumption.
Defined.

Lemma generation_failure_is_local_witness :
  (1 < 3)%nat
  /\ (forall j, (j <= 1)%nat -> init_ok (Script.lib Script.one_trial) j = true)
  /\ nth_error (attempts (config_log (Script.lib Script.one_trial) 1)) 1
     = Some false
  /\ exists before h rest,
       config_log (Script.lib Script.one_trial) 1 =
         before ++ [Next false; Cout_generation_failed; Pythia_stat; Cout_hist h;
                    HistPlot_add h (style_of 1) (label_of (nth 1 masses 0%Q))]
       /\ attempts before = repeat true 1
       /\ h = Histogram.fill_all
                (Histogram.book hist_title 100
                   (Binary64.of_Z (-10)) (Binary64.of_Z 10))
                (unit_weight (fills_of before))
       /\ nth_error
            (PlotComposer.series (snd (fst (main (Script.lib Script.one_trial)))))
            1
          = Some (mkSeries h (style_of 1) (label_of (nth 1 masses 0%Q)))
       /\ snd (main (Script.lib Script.one_trial)) =
          main_start
          ++ flat_map (config_log (Script.lib Script.one_trial)) (seq 0 1)
          ++ config_log (Script.lib Script.one_trial) 1 ++ rest
       /\ hd_error rest = Some Pythia_ctor.
Proof.
  assert (H1 : (1 < 3)%nat) by lia.
  assert (H2 : forall j, (j <= 1)%nat ->
                 init_ok (Script.lib Script.one_trial) j = true)
    by (intros j Hj; reflexivity).
  assert (H3 : nth_error (attempts (config_log (Script.lib Script.one_trial) 1)) 1
               = Some false) by (vm_compute; reflexivity).
  repeat (split; [assumption |]).
  exact (generation_failure_is_local (Script.lib Script.one_trial) 1 1 H1 H2 H3).
Defined.

Lemma trials_and_configurations_isolated_witness :
  (forall event event',
      Event_after_reset (Script.lib Script.one_trial) event
      = Event_after_reset (Script.lib Script.one_trial) event')
  /\ trial (Script.lib Script.one_trial) 5 (0%nat, 0%nat) Script.hadrons
       (Histogram.book hist_title 100 (Binary64.of_Z (-10)) (Binary64.of_Z 10))
     = trial (Script.lib Script.one_trial) 5 (0%nat, 0%nat) []
         (Histogram.book hist_title 100 (Binary64.of_Z (-10)) (Binary64.of_Z 10))
  /\ (fun _ : nat => (1%nat, 0%nat)) 1%nat
     = Pythia_new (Script.lib Script.one_trial) 1
  /\ config_series
       (with_instances (Script.lib Script.one_trial) (fun _ => (1%nat, 0%nat))) 1
     = config_series (Script.lib Script.one_trial) 1.
Proof.
  assert (Hreset : forall event event',
             Event_after_reset (Script.lib Script.one_trial) event
             = Event_after_reset (Script.lib Script.one_trial) event')
    by (intros; reflexivity).
  destruct (trials_and_configurations_isolated (Script.lib Script.one_trial))
    as (_ & Htrial & _ & _ & Hnew & _).
  split; [exact Hreset |]. split; [apply (Htrial Hreset) |].
  split; [reflexivity |].
  apply (Hnew (fun _ => (1%nat, 0%nat)) 1%nat). reflexivity.
Defined.
(** * Further properties of the driver *)

(** ** The order of the calls *)

Lemma follow_app ph l1 : forall l2,
  follow ph (l1 ++ l2) =
  match follow ph l1 with Some ph' => follow ph' l2 | None => None end.
Proof.
  revert ph; induction l1 as [|c l1 IH]; intros ph l2; [reflexivity |].
  cbn [app follow]. destruct (step ph c); [apply IH | reflexivity].
Qed.

Lemma follow_fills xs : follow Scanning (map Hist_fill xs) = Some Scanning.
Proof. induction xs as [|x xs IH]; [reflexivity | exact IH]. Qed.

Lemma follow_event_loop L todo : forall ph smass pythia event dndy,
  loop_entry ph ->
  exists ph', follow ph (snd (event_loop L todo smass pythia event dndy)) = Some ph'
              /\ loop_exit ph'.
Proof.
  induction todo as [|todo IH]; intros ph smass pythia event dndy Hph.
  - exists ph. split; [reflexivity |]. destruct Hph; [left | right; left]; assumption.
  - cbn [event_loop]. rewrite trial_spec.
    destruct (Pythia_next L pythia _) as [[|] [pythia1 event1]].
    + destruct (IH Scanning smass pythia1 event1
                  (Histogram.fill_all dndy (unit_weight (qualifying L event1))))
        as (ph' & E & Hexit); [right; reflexivity |].
      destruct (event_loop L todo smass pythia1 event1 _) as [st calls].
      cbn [snd] in *. exists ph'. split; [| exact Hexit].
      rewrite follow_app.
      assert (Et : follow ph (trial_setup L smass pythia
                              ++ Next true :: map Hist_fill (qualifying L event1))
                   = Some Scanning).
      { destruct Hph as [-> | ->]; cbn [trial_setup app follow step];
          apply follow_fills. }
      rewrite Et. exact E.
    + exists Broken. split; [| right; right; reflexivity].
      destruct Hph as [-> | ->]; reflexivity.
Qed.

Lemma follow_config_start L iMass :
  follow Sweeping (config_start L iMass)
  = Some (if init_ok L iMass then Initialised else Dead).
Proof. unfold config_start. destruct (init_ok L iMass); reflexivity. Qed.

Lemma follow_config_log L iMass : init_ok L iMass = true ->
  follow Sweeping (config_log L iMass) = Some Sweeping.
Proof.
  intros Hi. unfold config_log.
  rewrite follow_app, follow_config_start, Hi.
  cbn [follow step]. rewrite follow_app.
  destruct (follow_event_loop L (Z.to_nat (nEvent - 0)) Looping
              (nth iMass masses 0%Q) (snd (Pythia_init L (configured L iMass)))
              (Pythia_event L (snd (Pythia_init L (configured L iMass))))
              (Histogram.book hist_title 100 (Binary64.of_Z (-10)) (Binary64.of_Z 10)))
    as (ph' & E & Hexit); [left; reflexivity |].
  fold (config_events L iMass) in E. rewrite E.
  destruct Hexit as [-> | [-> | ->]]; reflexivity.
Qed.

Lemma ran_ok L todo : forall iMass j,
  (j < ran L todo iMass)%nat -> init_ok L (iMass + j) = true.
Proof.
  induction todo as [|todo IH]; intros iMass j Hj; cbn [ran] in Hj; [lia |].
  destruct (init_ok L iMass) eqn:Ei; [| lia].
  destruct j as [|j]; [rewrite Nat.add_0_r; assumption |].
  replace (iMass + S j)%nat with (S iMass + j)%nat by lia.
  apply IH. lia.
Qed.

Lemma follow_sweep L n : forall iMass,
  (forall j, (j < n)%nat -> init_ok L (iMass + j) = true) ->
  follow Sweeping (flat_map (config_log L) (seq iMass n)) = Some Sweeping.
Proof.
  induction n as [|n IH]; intros iMass Hok; [reflexivity |].
  cbn [seq flat_map]. rewrite follow_app, follow_config_log.
  - apply IH. intros j Hj.
    replace (S iMass + j)%nat with (iMass + S j)%nat by lia. apply Hok. lia.
  - rewrite <- (Nat.add_0_r iMass). apply Hok. lia.
Qed.

(** X1.  Every run makes its calls in the order of [step]: the plot is
    constructed and framed first; each generator is given the four
    settings in order and announced before [init]; [next] is called only
    on an initialised generator, right after a reset and two appends;
    [fill] is called only after a successful [next]; statistics, the
    histogram print and the add close each configuration.  A run that
    returns 0 ends on the plot, any other run ends on a failed [init],
    and nothing follows either. *)
Theorem call_protocol :
  forall L,
    follow AtStart (snd (main L))
    = Some (match fst (fst (main L)) with
            | Returned 0 => Done
            | _ => Dead
            end).
Proof.
  intros L. rewrite main_spec. cbn [fst snd].
  rewrite follow_app. cbn [main_start follow step].
  rewrite follow_app, follow_sweep by (intros j Hj; apply (ran_ok L 3 0 j Hj)).
  destruct (ran L 3 0 <? 3)%nat eqn:E.
  - apply Nat.ltb_lt in E. rewrite follow_config_start.
    pose proof (ran_stops L 3 0 E) as Hs. cbn [Nat.add] in Hs. rewrite Hs.
    reflexivity.
  - reflexivity.
Qed.

Lemma ran_full L todo : forall iMass,
  ran L todo iMass = todo <->
  (forall j, (j < todo)%nat -> init_ok L (iMass + j) = true).
Proof.
  induction todo as [|todo IH]; intros iMass.
  - split; [intros _ j Hj; lia | reflexivity].
  - cbn [ran]. destruct (init_ok L iMass) eqn:Ei.
    + split.
      * intros H. injection H as H. intros [|j] Hj.
        -- rewrite Nat.add_0_r. assumption.
        -- replace (iMass + S j)%nat with (S iMass + j)%nat by lia.
           apply (proj1 (IH (S iMass)) H). lia.
      * intros H. f_equal. apply IH. intros j Hj.
        replace (S iMass + j)%nat with (iMass + S j)%nat by lia. apply H. lia.
    + split; [discriminate |].
      intros H. specialize (H 0%nat ltac:(lia)).
      rewrite Nat.add_0_r in H. congruence.
Qed.

Lemma ran_with_next L next todo : forall iMass,
  ran (with_next L next) todo iMass = ran L todo iMass.
Proof.
  induction todo as [|todo IH]; intros iMass; [reflexivity |].
  cbn [ran]. change (init_ok (with_next L next) iMass) with (init_ok L iMass).
  rewrite IH. reflexivity.
Qed.

(** X2.  [main] returns 0 or 1, never another status and never an error;
    it returns 0 exactly when the generators of all three configurations
    initialise; and the status does not depend on what [next] does, so a
    failed trial never changes it. *)
Theorem exit_status :
  forall L,
    (fst (fst (main L)) = Returned 0 \/ fst (fst (main L)) = Returned 1)
    /\ (fst (fst (main L)) = Returned 0 <->
        forall iMass, (iMass < 3)%nat -> init_ok L iMass = true)
    /\ forall next, fst (fst (main (with_next L next))) = fst (fst (main L)).
Proof.
  intros L. split; [| split].
  - rewrite main_spec. cbn [fst]. destruct (ran L 3 0 <? 3)%nat; auto.
  - rewrite main_spec. cbn [fst].
    pose proof (ran_le L 3 0) as Hle.
    pose proof (ran_full L 3 0) as Hfull. cbn [Nat.add] in Hfull.
    destruct (ran L 3 0 <? 3)%nat eqn:E.
    + apply Nat.ltb_lt in E. split; [discriminate |].
      intros H. apply Hfull in H. lia.
    + apply Nat.ltb_ge in E. split; [| reflexivity].
      intros _. apply Hfull. lia.
  - intros next. rewrite !main_spec. cbn [fst].
    rewrite ran_with_next. reflexivity.
Qed.

Lemma exit_status_witness :
  (forall iMass, (iMass < 3)%nat ->
     init_ok (Script.lib Script.one_trial) iMass = true)
  /\ fst (fst (main (Script.lib Script.one_trial))) = Returned 0.
Proof.
  assert (H : forall iMass, (iMass < 3)%nat ->
                init_ok (Script.lib Script.one_trial) iMass = true)
    by (intros; reflexivity).
  split; [exact H |].
  destruct (exit_status (Script.lib Script.one_trial)) as (_ & Hiff & _).
  apply Hiff, H.
Defined.

(** *** Every fill is accounted for *)




(** *** One histogram per initialised generator *)

Lemma config_log_counts L iMass :
  count is_pythia_ctor (config_log L iMass) = 1%nat
  /\ count is_init (config_log L iMass) = 1%nat
  /\ count is_hist_ctor (config_log L iMass) = 1%nat
  /\ count is_add (config_log L iMass) = 1%nat
  /\ count is_init_ok (config_log L iMass) = (if init_ok L iMass then 1 else 0)%nat.
Proof.
  assert (Hev : forall P : Call -> bool,
            (forall c, trial_call c = true -> P c = false) ->
            count P (snd (config_events L iMass)) = 0%nat).
  { intros P HP. apply count_none.
    pose proof (event_loop_calls L (Z.to_nat (nEvent - 0)) (nth iMass masses 0%Q)
                  (snd (Pythia_init L (configured L iMass)))
                  (Pythia_event L (snd (Pythia_init L (configured L iMass))))
                  (Histogram.book hist_title 100 (Binary64.of_Z (-10)) (Binary64.of_Z 10))) as H.
    fold (config_events L iMass) in H.
    rewrite forallb_forall in *. intros c Hc. rewrite (HP c (H c Hc)). reflexivity. }
  unfold config_log.
  change (Hist_ctor hist_title 100 (Binary64.of_Z (-10)) (Binary64.of_Z 10) :: ?l)
    with ([Hist_ctor hist_title 100 (Binary64.of_Z (-10)) (Binary64.of_Z 10)] ++ l).
  rewrite !count_app, !Hev
    by (intros c Hc; destruct c; try discriminate Hc; reflexivity).
  unfold config_start. destruct (init_ok L iMass); repeat split.
Qed.

Lemma sweep_counts L (l : list nat) :
  (forall i, In i l -> init_ok L i = true) ->
  count is_pythia_ctor (flat_map (config_log L) l) = List.length l
  /\ count is_init (flat_map (config_log L) l) = List.length l
  /\ count is_hist_ctor (flat_map (config_log L) l) = List.length l
  /\ count is_add (flat_map (config_log L) l) = List.length l
  /\ count is_init_ok (flat_map (config_log L) l) = List.length l.
Proof.
  induction l as [|i l IH]; intros Hok; [repeat split |].
  destruct IH as (A1 & A2 & A3 & A4 & A5); [intros j Hj; apply Hok; right; exact Hj |].
  destruct (config_log_counts L i) as (C1 & C2 & C3 & C4 & C5).
  rewrite (Hok i (or_introl eq_refl)) in C5.
  cbn [flat_map List.length].
  rewrite !count_app, A1, A2, A3, A4, A5, C1, C2, C3, C4, C5. repeat split.
Qed.

(** X3.  In every run the number of successful [init] calls, of
    histograms booked and of series added are equal, and equal to the
    number of series the plot holds at the end; every generator
    constructed is initialised once; at most three are constructed; and
    the string masses announced are the first ones of [masses], in
    order. *)
Theorem one_histogram_per_generator :
  forall L,
    let calls := snd (main L) in
    let added := List.length (PlotComposer.series (snd (fst (main L)))) in
    count is_init_ok calls = added
    /\ count is_hist_ctor calls = added
    /\ count is_add calls = added
    /\ count is_init calls = count is_pythia_ctor calls
    /\ (count is_pythia_ctor calls <= 3)%nat
    /\ announced calls = firstn (count is_pythia_ctor calls) masses.
Proof.
  intros L calls added. subst calls added.
  rewrite main_spec. cbn [fst snd PlotComposer.series].
  rewrite length_map, length_seq.
  destruct (sweep_counts L (seq 0 (ran L 3 0))) as (A1 & A2 & A3 & A4 & A5).
  { intros i Hi. apply in_seq in Hi. apply (ran_ok L 3 0 i). lia. }
  rewrite length_seq in *.
  destruct (sweep_project L (seq 0 (ran L 3 0))) as (_ & Hann & _).
  pose proof (ran_le L 3 0) as Hle.
  rewrite !count_app, !announced_app, A1, A2, A3, A4, A5, Hann.
  change (announced main_start) with (@nil Q).
  destruct (ran L 3 0 <? 3)%nat eqn:E.
  - apply Nat.ltb_lt in E.
    pose proof (ran_stops L 3 0 E) as Hs. cbn [Nat.add] in Hs.
    unfold config_start. rewrite Hs.
    cbn [count main_start filter map settings app List.length is_init_ok
         is_hist_ctor is_add is_init is_pythia_ctor announced flat_map].
    rewrite !Nat.add_0_r.
    repeat split; try lia.
    replace (ran L 3 0 + 1)%nat with (S (ran L 3 0)) by lia.
    revert E. generalize (ran L 3 0). intros [|[|[|r]]] E; try lia; reflexivity.
  - apply Nat.ltb_ge in E. assert (Er : ran L 3 0 = 3%nat) by lia. rewrite Er.
    repeat split. cbn. lia.
Qed.

Lemma config_attempts_bound L iMass :
  Z.of_nat (List.length (attempts (config_log L iMass))) <= 1000000.
Proof.
  destruct (config_attempts L iMass) as (before & k & _ & Hk & _ & -> & _).
  pose proof nEvent_trials as HN.
  set (N := Z.to_nat (nEvent - 0)) in *. clearbody N.
  rewrite length_app, repeat_length.
  destruct (k <? N)%nat eqn:E; cbn [List.length].
  - apply Nat.ltb_lt in E. lia.
  - lia.
Qed.

Lemma sweep_attempts_bound L (l : list nat) :
  Z.of_nat (List.length (attempts (flat_map (config_log L) l)))
  <= 1000000 * Z.of_nat (List.length l).
Proof.
  induction l as [|i l IH]; [cbn; lia |].
  cbn [flat_map List.length]. rewrite attempts_app, length_app.
  pose proof (config_attempts_bound L i). lia.
Qed.

(** X6.  A run calls [next] at most 3,000,000 times. *)
Theorem attempts_bounded :
  forall L, Z.of_nat (List.length (attempts (snd (main L)))) <= 3000000.
Proof.
  intros L. rewrite main_spec. cbn [snd].
  rewrite !attempts_app, !length_app.
  change (attempts main_start) with (@nil bool).
  assert (Et : attempts (if (ran L 3 0 <? 3)%nat
                         then config_start L (ran L 3 0) else [HistPlot_plot])
               = []) by (destruct (ran L 3 0 <? 3)%nat; reflexivity).
  rewrite Et. cbn [List.length].
  pose proof (sweep_attempts_bound L (seq 0 (ran L 3 0))) as H.
  rewrite length_seq in H. pose proof (ran_le L 3 0). lia.
Qed.

Lemma fill_all_keeps_title h fills :
  Histogram.title (Histogram.fill_all h fills) = Histogram.title h.
Proof.
  revert h; induction fills as [|[v w] fills IH]; intros h; [reflexivity |].
  rewrite HistogramFacts.fill_all_cons, IH. apply HistogramFacts.fill_title.
Qed.

Lemma nth_error_map_seq {A} (f : nat -> A) n i :
  nth_error (map f (seq 0 n)) i = if (i <? n)%nat then Some (f i) else None.
Proof.
  destruct (i <? n)%nat eqn:E.
  - apply Nat.ltb_lt in E.
    rewrite (nth_error_nth' _ (f 0%nat)) by (rewrite length_map, length_seq; exact E).
    f_equal. rewrite (map_nth f (seq 0 n) 0%nat i), seq_nth by exact E. reflexivity.
  - apply Nat.ltb_ge in E. apply nth_error_None.
    rewrite length_map, length_seq. exact E.
Qed.

(** X5.  Whatever the run, the series at position [i] of the plot is the
    one of [masses[i]]: it is labelled with that mass, styled with
    [plotColours[i]], its histogram has the title given at line 72, the
    mass was announced at position [i], and the generators of the
    configurations up to [i] initialised. *)
Theorem series_follow_masses :
  forall L i s,
    nth_error (PlotComposer.series (snd (fst (main L)))) i = Some s ->
    (i < 3)%nat
    /\ label s = label_of (nth i masses 0%Q)
    /\ styleToken s = style_of i
    /\ Histogram.title (histogram s) = hist_title
    /\ nth_error (announced (snd (main L))) i = Some (nth i masses 0%Q)
    /\ forall j, (j <= i)%nat -> init_ok L j = true.
Proof.
  intros L i s. rewrite main_spec. cbn [fst snd PlotComposer.series].
  rewrite nth_error_map_seq.
  pose proof (ran_le L 3 0) as Hle.
  destruct (i <? ran L 3 0)%nat eqn:E; [| discriminate].
  apply Nat.ltb_lt in E. intros [= <-].
  split; [lia |]. split; [reflexivity |]. split; [reflexivity |].
  split; [| split].
  - cbn [config_series histogram].
    destruct (config_attempts L i) as (before & k & _ & _ & _ & _ & ->).
    apply fill_all_keeps_title.
  - destruct (sweep_project L (seq 0 (ran L 3 0))) as (_ & Hann & _).
    rewrite !announced_app, Hann.
    change (announced main_start) with (@nil Q). cbn [app].
    rewrite nth_error_app1 by (rewrite length_map, length_seq; exact E).
    rewrite nth_error_map_seq.
    apply Nat.ltb_lt in E. rewrite E. reflexivity.
  - intros j Hj. apply (ran_ok L 3 0 j). lia.
Qed.

Lemma series_follow_masses_witness :
  nth_error (PlotComposer.series (snd (fst (main (Script.lib Script.one_trial))))) 2
  = Some (config_series (Script.lib Script.one_trial) 2)
  /\ label (config_series (Script.lib Script.one_trial) 2)
     = "100.00 GeV string"%string
  /\ styleToken (config_series (Script.lib Script.one_trial) 2)
     = "--,indianred"%string.
Proof.
  assert (H : nth_error
                (PlotComposer.series
                   (snd (fst (main (Script.lib Script.one_trial))))) 2
              = Some (config_series (Script.lib Script.one_trial) 2))
    by (vm_compute; reflexivity).
  split; [exact H |].
  destruct (series_follow_masses (Script.lib Script.one_trial) 2 _ H)
    as (_ & Hl & Hs & _).
  split.
  - rewrite Hl. vm_compute. reflexivity.
  - rewrite Hs. reflexivity.
Defined.

(** *** The string that is hadronised *)

(** X7.  The two entities appended before each generation balance: their
    energies add up to the string mass, their momenta cancel, they carry
    no transverse momentum, so the invariant mass of the pair is the
    string mass; both are massless, whatever the particle data say; the
    colour of the quark is the anticolour of the antiquark.  When
    [sqrtpos] returns the non-negative root of its argument, each carries
    the momentum [smass / 2]. *)
Theorem string_kinematics :
  forall L smass pythia,
    let q := quark L smass pythia in
    let qbar := antiquark L smass pythia in
    (Particle.e q + Particle.e qbar == smass)%Q
    /\ (Particle.pz q + Particle.pz qbar == 0)%Q
    /\ (Particle.px q = 0 /\ Particle.py q = 0
        /\ Particle.px qbar = 0 /\ Particle.py qbar = 0)%Q
    /\ (Particle.m q = 0 /\ Particle.m qbar = 0)%Q
    /\ ((Particle.e q + Particle.e qbar) * (Particle.e q + Particle.e qbar)
        - (Particle.pz q + Particle.pz qbar) * (Particle.pz q + Particle.pz qbar)
        == smass * smass)%Q
    /\ (Particle.col q = Particle.acol qbar /\ Particle.acol q = Particle.col qbar)
    /\ ((0 <= smass)%Q ->
        (0 <= Particle.pz q)%Q ->
        (Particle.pz q * Particle.pz q
         == Particle.e q * Particle.e q - Particle.m q * Particle.m q)%Q ->
        (Particle.pz q == smass / 2 /\ Particle.pz qbar == - (smass / 2))%Q).
Proof.
  intros L smass pythia q qbar. subst q qbar.
  unfold quark, antiquark. cbn [masslessQuarks Particle.e Particle.pz Particle.px
    Particle.py Particle.m Particle.col Particle.acol].
  set (pp := sqrtpos L (smass / 2 * (smass / 2) - 0 * 0)%Q).
  assert (Eh : (smass / 2 == smass * (1 # 2))%Q) by field.
  split; [rewrite Eh; ring |].
  split; [ring |].
  split; [repeat split |].
  split; [repeat split |].
  split; [rewrite Eh; ring |].
  split; [split; reflexivity |].
  intros Hs Hp Hsq. rewrite Eh in *.
  assert (E : (pp == smass * (1 # 2))%Q) by nra.
  split; [exact E | rewrite E; ring].
Qed.

Lemma string_kinematics_witness :
  (0 <= 5)%Q
  /\ (0 <= Particle.pz (quark (Script.lib Script.one_trial) 5 (0%nat, 0%nat)))%Q
  /\ (Particle.pz (quark (Script.lib Script.one_trial) 5 (0%nat, 0%nat))
      * Particle.pz (quark (Script.lib Script.one_trial) 5 (0%nat, 0%nat))
      == Particle.e (quark (Script.lib Script.one_trial) 5 (0%nat, 0%nat))
         * Particle.e (quark (Script.lib Script.one_trial) 5 (0%nat, 0%nat))
         - Particle.m (quark (Script.lib Script.one_trial) 5 (0%nat, 0%nat))
           * Particle.m (quark (Script.lib Script.one_trial) 5 (0%nat, 0%nat)))%Q
  /\ (Particle.pz (quark (Script.lib Script.one_trial) 5 (0%nat, 0%nat)) == 5 / 2)%Q.
Proof.
  assert (H1 : (0 <= 5)%Q) by (vm_compute; discriminate).
  assert (H2 : (0 <= Particle.pz
                       (quark (Script.lib Script.one_trial) 5 (0%nat, 0%nat)))%Q)
    by (vm_compute; discriminate).
  assert (H3 : (Particle.pz (quark (Script.lib Script.one_trial) 5 (0%nat, 0%nat))
      * Particle.pz (quark (Script.lib Script.one_trial) 5 (0%nat, 0%nat))
      == Particle.e (quark (Script.lib Script.one_trial) 5 (0%nat, 0%nat))
         * Particle.e (quark (Script.lib Script.one_trial) 5 (0%nat, 0%nat))
         - Particle.m (quark (Script.lib Script.one_trial) 5 (0%nat, 0%nat))
           * Particle.m (quark (Script.lib Script.one_trial) 5 (0%nat, 0%nat)))%Q)
    by (vm_compute; reflexivity).
  repeat (split; [assumption |]).
  destruct (string_kinematics (Script.lib Script.one_trial) 5 (0%nat, 0%nat))
    as (_ & _ & _ & _ & _ & _ & H).
  apply (H H1 H2 H3).
Defined.

(** X8.  The two entities the driver appends are never histogrammed: when
    the generation leaves them in the record, after what came before them
    and with hadrons added after them, the fills of the trial are the
    qualifying rapidities of the other entries alone. *)
Theorem seed_partons_never_filled :
  forall L smass pythia event dndy pythia' before hadrons,
    Pythia_next L pythia (seeded L smass pythia event)
    = (true, (pythia',
              before ++ [quark L smass pythia; antiquark L smass pythia]
              ++ hadrons)) ->
    fills_of (snd (trial L smass pythia event dndy))
    = qualifying L before ++ qualifying L hadrons
    /\ snd (snd (fst (trial L smass pythia event dndy)))
       = Histogram.fill_all dndy
           (unit_weight (qualifying L before ++ qualifying L hadrons)).
Proof.
  intros L smass pythia event dndy pythia' before hadrons H.
  rewrite trial_spec, H. cbn [fst snd].
  assert (E : qualifying L (before
                            ++ [quark L smass pythia; antiquark L smass pythia]
                            ++ hadrons)
              = qualifying L before ++ qualifying L hadrons)
    by (rewrite !qualifying_app; reflexivity).
  rewrite E. split; [| reflexivity].
  apply (fills_of_fills (qualifying L before ++ qualifying L hadrons)).
Qed.

Lemma seed_partons_never_filled_witness :
  Pythia_next (Script.lib Script.one_trial) (0%nat, 0%nat)
    (seeded (Script.lib Script.one_trial) 5 (0%nat, 0%nat) [])
  = (true, ((0%nat, 1%nat),
            [Script.system_line]
            ++ [quark (Script.lib Script.one_trial) 5 (0%nat, 0%nat);
                antiquark (Script.lib Script.one_trial) 5 (0%nat, 0%nat)]
            ++ Script.hadrons))
  /\ fills_of (snd (trial (Script.lib Script.one_trial) 5 (0%nat, 0%nat) []
                      (Histogram.book hist_title 100
                         (Binary64.of_Z (-10)) (Binary64.of_Z 10))))
     = map Binary64.of_Q [1 # 2; - (3 # 2); -12]%Q.
Proof.
  split; [reflexivity |].
  apply (seed_partons_never_filled (Script.lib Script.one_trial) 5 (0%nat, 0%nat)
           [] (Histogram.book hist_title 100 (Binary64.of_Z (-10)) (Binary64.of_Z 10))
           (0%nat, 1%nat) [Script.system_line] Script.hadrons).
  reflexivity.
Defined.

Example follow_rejects :
  follow AtStart [HistPlot_plot] = None
  /\ follow Looping [Hist_fill Binary64.zero] = None
  /\ follow Reset0 [Next true] = None
  /\ follow Sweeping [Pythia_ctor; Init true] = None
  /\ follow Dead [HistPlot_plot] = None
  /\ follow Done [Pythia_ctor] = None.
Proof. repeat split. Qed.

(** *** Reading a label back *)

Lemma digits_then_point ip : forall ip' t t',
  Decimal.all_digits ip = true -> Decimal.all_digits ip' = true ->
  (ip ++ String "." t)%string = (ip' ++ String "." t')%string ->
  ip = ip' /\ t = t'.
Proof.
  induction ip as [|c ip IH]; intros [|c' ip'] t t' Hd Hd' E; cbn [append] in E.
  - injection E as E. auto.
  - injection E as Ec E. subst c'. cbn in Hd'. discriminate.
  - injection E as Ec E. subst c. cbn in Hd. discriminate.
  - injection E as Ec E. subst c'.
    cbn [Decimal.all_digits] in Hd, Hd'.
    apply andb_true_iff in Hd as [_ Hd]. apply andb_true_iff in Hd' as [_ Hd'].
    destruct (IH ip' t t' Hd Hd' E) as [-> ->]. auto.
Qed.

Lemma fixed_2dp_unique b b' ip ip' d1 d1' d2 d2' :
  ip <> ""%string -> ip' <> ""%string ->
  Decimal.all_digits ip = true -> Decimal.all_digits ip' = true ->
  fixed_2dp b ip d1 d2 = fixed_2dp b' ip' d1' d2' ->
  b = b' /\ ip = ip' /\ d1 = d1' /\ d2 = d2'.
Proof.
  intros Hn Hn' Hd Hd' E. unfold fixed_2dp in E.
  assert (Hminus : forall s t u,
            s <> ""%string -> Decimal.all_digits s = true ->
            (("-" ++ t)%string = (s ++ u)%string) -> False).
  { intros [|c s] t u Hs Hds Es; [contradiction |].
    cbn [append] in Es. injection Es as Ec _. subst c. cbn in Hds. discriminate. }
  destruct b, b'.
  - cbn [append] in E. injection E as E.
    destruct (digits_then_point _ _ _ _ Hd Hd' E) as [-> Et].
    injection Et as -> ->. auto.
  - exfalso. cbn [append] in E.
    apply (Hminus ip' (ip ++ "." ++ String d1 (String d2 ""))%string
             ("." ++ String d1' (String d2' ""))%string Hn' Hd').
    exact E.
  - exfalso. cbn [append] in E.
    apply (Hminus ip (ip' ++ "." ++ String d1' (String d2' ""))%string
             ("." ++ String d1 (String d2 ""))%string Hn Hd).
    symmetry. exact E.
  - cbn [append] in E.
    destruct (digits_then_point _ _ _ _ Hd Hd' E) as [-> Et].
    injection Et as -> ->. auto.
Qed.

Open Scope Q_scope.

(** X10.  Two finite values printed as the same text differ by at most
    0.01; so values further apart than that never share a label. *)
Theorem to_string_2dp_separates :
  forall v v' : double,
    Binary64.finite v = true -> Binary64.finite v' = true ->
    to_string_2dp v = to_string_2dp v' ->
    Qabs (Binary64.value v - Binary64.value v') <= 1 # 100.
Proof.
  intros v v' Hv Hv' E.
  destruct (to_string_2dp_shape v Hv)
    as (ip & d1 & d2 & Es & Hn & Hd & _ & _ & Hb).
  destruct (to_string_2dp_shape v' Hv')
    as (ip' & d1' & d2' & Es' & Hn' & Hd' & _ & _ & Hb').
  rewrite Es, Es' in E.
  destruct (fixed_2dp_unique _ _ _ _ _ _ _ _ Hn Hn' Hd Hd' E) as (Eb & -> & -> & ->).
  apply Qabs_Qle_condition in Hb. apply Qabs_Qle_condition in Hb'.
  apply Qabs_Qle_condition.
  unfold Binary64.value. rewrite <- Eb.
  destruct (Binary64.sign_bit v); split; lra.
Qed.

Lemma to_string_2dp_separates_witness :
  Binary64.finite (Binary64.of_Z 5) = true
  /\ Binary64.finite (Binary64.of_Q (5001 # 1000)) = true
  /\ to_string_2dp (Binary64.of_Z 5) = to_string_2dp (Binary64.of_Q (5001 # 1000))
  /\ Qabs (Binary64.value (Binary64.of_Z 5)
           - Binary64.value (Binary64.of_Q (5001 # 1000))) <= 1 # 100.
Proof.
  assert (H : to_string_2dp (Binary64.of_Z 5)
              = to_string_2dp (Binary64.of_Q (5001 # 1000)))
    by (vm_compute; reflexivity).
  split; [reflexivity |]. split; [reflexivity |]. split; [exact H |].
  apply (to_string_2dp_separates (Binary64.of_Z 5) (Binary64.of_Q (5001 # 1000))
           eq_refl eq_refl H).
Defined.

(** The two zeros are printed differently and have the same value. *)
Example to_string_2dp_signed_zero :
  to_string_2dp (S754_zero true) = "-0.00"%string
  /\ to_string_2dp (S754_zero false) = "0.00"%string
  /\ Binary64.value (S754_zero true) == Binary64.value (S754_zero false).
Proof. vm_compute. repeat split. Qed.
